(** * Task store of the task manager: normalisation, mutations and undo

    A shallow embedding of the [useTasks] hook: the load-time normalisation
    of externally supplied records ([normalizeTasks]) and the five mutation
    entry points ([addTask], [updateTask], [deleteTask], [undoDelete],
    [clearHistory]) acting on the pair (canonical collection, lastDeleted).

    The hook is written against the JavaScript runtime; the part of the
    runtime it relies on (truthiness, [Number], [Date], [toISOString]) is
    modelled first, in module [JS]. *)

From Stdlib Require Import ZArith List String Ascii Bool Lia.
From Stdlib Require Import PrimFloat FloatOps SpecFloat DecimalString.
From Stdlib Require Import Permutation.
From Stdlib Require DecimalFacts DecimalZ.
Import ListNotations.
Local Open Scope string_scope.
Local Open Scope Z_scope.
#[local] Set Warnings "-register-all".

(* ===================================================================== *)
(** ** The JavaScript runtime the hook relies on *)
(* ===================================================================== *)

Module JS.

(** Values that can reach the hook from [res.json()]: the JSON values, plus
    [undefined] (what reading an absent property yields).  An object is the
    list of its own properties; a property read takes the first binding. *)
Inductive Value : Type :=
| Undefined
| Null
| Bool (b : bool)
| Number (x : float)
| Str (s : string)
| Array (elems : list Value)
| Object (props : list (string * Value)).

(** Exceptions the modelled code can throw. *)
Inductive Error : Type :=
| TypeError
| RangeError.

(** Completion of a computation: a value or a thrown exception. *)
Inductive result (A : Type) : Type :=
| Ok (a : A)
| Throw (e : Error).
Arguments Ok {A} a.
Arguments Throw {A} e.

Definition bind {A B} (r : result A) (k : A -> result B) : result B :=
  match r with
  | Ok a => k a
  | Throw e => Throw e
  end.

(** [items.map((t, idx) => f(t, idx))]: the callback runs on every element
    in order, the first exception aborts the whole map. *)
Fixpoint map_indexed {A B} (f : A -> nat -> result B) (idx : nat) (items : list A)
  : result (list B) :=
  match items with
  | [] => Ok []
  | t :: rest =>
      bind (f t idx) (fun y =>
      bind (map_indexed f (S idx) rest) (fun ys => Ok (y :: ys)))
  end.

Fixpoint lookup (key : string) (props : list (string * Value)) : Value :=
  match props with
  | [] => Undefined
  | (k, v) :: rest => if String.eqb k key then v else lookup key rest
  end.

(** [t.key] for a data property [key] that no primitive wrapper defines:
    reading from [undefined] or [null] throws a TypeError, every other
    non-object yields [undefined]. *)
Definition get (t : Value) (key : string) : result Value :=
  match t with
  | Undefined | Null => Throw TypeError
  | Object props => Ok (lookup key props)
  | _ => Ok Undefined
  end.

(** ToBoolean. *)
Definition truthy (v : Value) : bool :=
  match v with
  | Undefined | Null => false
  | Bool b => b
  | Number x => negb (PrimFloat.is_nan x || PrimFloat.is_zero x)
  | Str s => negb (String.eqb s "")
  | Array _ | Object _ => true
  end.

(** [v === 'Done'] and the like: strict equality with a string literal. *)
Definition strict_eq_string (v : Value) (lit : string) : bool :=
  match v with
  | Str s => String.eqb s lit
  | _ => false
  end.

Definition isArray (v : Value) : bool :=
  match v with
  | Array _ => true
  | _ => false
  end.

(** What the host supplies and the language leaves to it (or what would need
    a model of number printing and parsing): the numeric reading of a string,
    [Date.parse], and the string an array or plain object converts to. *)
Record Host : Type := {
  StringToNumber : string -> float;
  Date_parse : string -> option Z;
  ToPrimitive : Value -> string
}.

(** [Number(v)]. *)
Definition ToNumber (h : Host) (v : Value) : float :=
  match v with
  | Undefined => PrimFloat.nan
  | Null => PrimFloat.zero
  | Bool true => PrimFloat.one
  | Bool false => PrimFloat.zero
  | Number x => x
  | Str s => StringToNumber h s
  | Array _ | Object _ => StringToNumber h (ToPrimitive h v)
  end.

(** [a ?? b]: the right operand only when the left one is [null] or
    [undefined]. *)
Definition nullish (a b : Value) : Value :=
  match a with
  | Undefined | Null => b
  | _ => a
  end.

(** *** Dates

    A Date object is its time value: [Some t], an integral number of
    milliseconds since the epoch with |t| <= 8.64e15, or [None] for an
    invalid date (time value NaN).  Integers of that size are exact doubles,
    so the arithmetic on time values is done in [Z]. *)

Definition Date : Type := option Z.

Definition maxTime : Z := 8640000000000000.

Definition TimeClip (t : Z) : Date :=
  if Z.abs t <=? maxTime then Some t else None.

(** The integral part of a finite double, [None] for NaN and infinities. *)
Definition float_trunc (x : float) : option Z :=
  match Prim2SF x with
  | S754_zero _ => Some 0
  | S754_infinity _ | S754_nan => None
  | S754_finite sign m e =>
      let mag := Z.shiftl (Z.pos m) e in
      Some (if sign then - mag else mag)
  end.

(** [new Date(n)] for a number [n] that is integral ([Some t]) or NaN. *)
Definition Date_of_number (n : option Z) : Date :=
  match n with
  | Some t => TimeClip t
  | None => None
  end.

(** [d.getTime()]: the time value, NaN for an invalid date. *)
Definition getTime (d : Date) : option Z := d.

(** [n + k] for a number [n] as above and an integer [k]. *)
Definition plus (n : option Z) (k : Z) : option Z :=
  match n with
  | Some t => Some (t + k)
  | None => None
  end.

(** [new Date(v)] for a value [v]. *)
Definition new_Date (h : Host) (v : Value) : Date :=
  match v with
  | Str s => Date_parse h s
  | Array _ | Object _ => Date_parse h (ToPrimitive h v)
  | Undefined => None
  | Null => Some 0
  | Bool b => Some (if b then 1 else 0)
  | Number x => Date_of_number (float_trunc x)
  end.

(** Fixed-width decimal rendering, most significant digit first. *)
Fixpoint pad (width : nat) (z : Z) : string :=
  match width with
  | O => ""
  | S w => pad w (z / 10) ++ String (ascii_of_nat (48 + Z.to_nat (z mod 10))) ""
  end.

Definition msPerDay : Z := 86400000.

(** Year, month and day of the month of a day number (days since
    1970-01-01) in the proleptic Gregorian calendar. *)
Definition civil_from_days (days : Z) : Z * Z * Z :=
  let z := days + 719468 in
  let era := z / 146097 in
  let doe := z - era * 146097 in
  let yoe := (doe - doe / 1460 + doe / 36524 - doe / 146096) / 365 in
  let doy := doe - (365 * yoe + yoe / 4 - yoe / 100) in
  let mp := (5 * doy + 2) / 153 in
  let d := doy - (153 * mp + 2) / 5 + 1 in
  let m := if mp <? 10 then mp + 3 else mp - 9 in
  let y := yoe + era * 400 + (if m <=? 2 then 1 else 0) in
  (y, m, d).

Definition year_string (y : Z) : string :=
  if (0 <=? y) && (y <=? 9999) then pad 4 y
  else if y <? 0 then "-" ++ pad 6 (- y)
  else "+" ++ pad 6 y.

(** The text [toISOString] renders for a valid time value:
    YYYY-MM-DDTHH:mm:ss.sssZ in UTC. *)
Definition iso_of_time (t : Z) : string :=
  let '(y, m, d) := civil_from_days (t / msPerDay) in
  let ms := t mod msPerDay in
  year_string y ++ "-" ++ pad 2 m ++ "-" ++ pad 2 d ++ "T" ++
  pad 2 (ms / 3600000) ++ ":" ++ pad 2 (ms / 60000 mod 60) ++ ":" ++
  pad 2 (ms / 1000 mod 60) ++ "." ++ pad 3 (ms mod 1000) ++ "Z".

Arguments iso_of_time : simpl never.

(** [d.toISOString()]: a RangeError on an invalid date. *)
Definition toISOString (d : Date) : result string :=
  match d with
  | Some t => Ok (iso_of_time t)
  | None => Throw RangeError
  end.

(** Decimal rendering of an integral number, as string concatenation
    ['task-' + n] does for integers below 1e21. *)
Definition string_of_Z (z : Z) : string :=
  NilZero.string_of_int (Z.to_int z).

End JS.

Declare Scope js_scope.
Notation "x <- c ;; k" := (JS.bind c (fun x => k))
  (at level 61, c at next level, right associativity) : js_scope.

Local Open Scope js_scope.

(* ===================================================================== *)
(** ** Load-time normalisation *)
(* ===================================================================== *)

Module Load.
Import JS.

(** The object literal [normalizeTasks] builds for each record.  The source
    casts it to [Task] without a check, so a field holds whatever value the
    expression of that field evaluates to. *)
Record Task : Type := {
  id : Value;
  title : Value;
  revenue : Value;
  timeTaken : Value;
  priority : Value;
  status : Value;
  notes : Value;
  createdAt : Value;
  completedAt : Value
}.

(** The callback of the [map]: record [t] at index [idx], with [now] the
    reading of [Date.now()] taken once before the map.  The day arithmetic
    is exact in doubles for every index below 10^8 (products under 2^53),
    which is where it is done in [Z] here. *)
Definition normalizeTask (h : Host) (now : Z) (t : Value) (idx : nat) : result Task :=
  t_createdAt <- get t "createdAt" ;;
  let created :=
    if truthy t_createdAt then new_Date h t_createdAt
    else Date_of_number (Some (now - (Z.of_nat idx + 1) * 24 * 3600 * 1000)) in
  t_completedAt <- get t "completedAt" ;;
  completed <-
    (if truthy t_completedAt then Ok t_completedAt
     else
       t_status <- get t "status" ;;
       if strict_eq_string t_status "Done"
       then iso <- toISOString (Date_of_number (plus (getTime created) (24 * 3600 * 1000))) ;;
            Ok (Str iso)
       else Ok Undefined) ;;
  t_id <- get t "id" ;;
  t_title <- get t "title" ;;
  t_revenue <- get t "revenue" ;;
  t_timeTaken <- get t "timeTaken" ;;
  t_priority <- get t "priority" ;;
  t_status <- get t "status" ;;
  t_notes <- get t "notes" ;;
  created_iso <- toISOString created ;;
  Ok {| id := t_id;
        title := t_title;
        revenue := nullish (Number (ToNumber h t_revenue)) (Number 0);
        timeTaken := if PrimFloat.leb 0 (ToNumber h t_timeTaken)
                     then Number (ToNumber h t_timeTaken) else Number 0;
        priority := t_priority;
        status := t_status;
        notes := t_notes;
        createdAt := Str created_iso;
        completedAt := completed |}.

Definition normalizeTasks (h : Host) (now : Z) (input : Value) : result (list Task) :=
  let items := match input with Array elems => elems | _ => [] end in
  map_indexed (normalizeTask h now) 0 items.

(** *** Records used in statements and examples *)

(** A record without a usable [createdAt]: the property reads as a falsy
    value (absent, null, empty, zero), the test the source makes. *)
Definition lacks_createdAt (t : Value) : bool :=
  match get t "createdAt" with
  | Ok v => negb (truthy v)
  | Throw _ => false
  end.

(** The instant synthesised for index [idx]: [idx + 1] days before [now]. *)
Definition synthesized_time (now : Z) (idx : nat) : Z :=
  now - (Z.of_nat idx + 1) * 24 * 3600 * 1000.

Definition title_only (ttl : Value) : Value := Object [("title", ttl)].

Definition two_untimed_records : Value :=
  Array [title_only (Str "A"); title_only (Str "B")].

(** What normalisation makes of a record with a title only, at index 0. *)
Definition normalized_title_only (now : Z) (ttl : Value) : Task :=
  {| id := Undefined;
     title := ttl;
     revenue := Number PrimFloat.nan;
     timeTaken := Number 0;
     priority := Undefined;
     status := Undefined;
     notes := Undefined;
     createdAt := Str (iso_of_time (now - 86400000));
     completedAt := Undefined |}.

(** The same for a record at index 1. *)
Definition normalized_second (now : Z) (ttl : Value) : Task :=
  {| id := Undefined;
     title := ttl;
     revenue := Number PrimFloat.nan;
     timeTaken := Number 0;
     priority := Undefined;
     status := Undefined;
     notes := Undefined;
     createdAt := Str (iso_of_time (now - 2 * 86400000));
     completedAt := Undefined |}.

(** A host that reads no string as a number or as a date.  It stands in
    where a run is shown on records none of whose converted fields holds a
    string, an array or an object, so that its conversions are not reached. *)
Definition plain_host : Host :=
  {| StringToNumber := fun _ => PrimFloat.nan;
     Date_parse := fun _ => None;
     ToPrimitive := fun _ => "" |}.

(** What reading property [key] of a record yields once the record is
    known not to be [null] or [undefined]. *)
Definition field (t : Value) (key : string) : Value :=
  match t with
  | Object props => lookup key props
  | _ => Undefined
  end.

(** The [created] date of a record: parsed from a truthy [createdAt],
    synthesised from the index otherwise. *)
Definition created_date (h : Host) (now : Z) (t : Value) (idx : nat) : Date :=
  if truthy (field t "createdAt") then new_Date h (field t "createdAt")
  else Date_of_number (Some (synthesized_time now idx)).

(** A record the source cannot read a property from. *)
Definition unreadable (t : Value) : bool :=
  match t with
  | Undefined | Null => true
  | _ => false
  end.

(** A record the callback returns a task for: it can be read, its created
    date is valid, and so is the day after when that day has to be rendered
    (status 'Done' without a [completedAt]). *)
Definition normalizable (h : Host) (now : Z) (t : Value) (idx : nat) : bool :=
  negb (unreadable t) &&
  match created_date h now t idx with
  | None => false
  | Some tv =>
      truthy (field t "completedAt")
      || negb (strict_eq_string (field t "status") "Done")
      || (Z.abs (tv + 24 * 3600 * 1000) <=? maxTime)
  end.

(** Records with a [createdAt] beyond the range of dates, a status 'Done'
    and a negative [timeTaken]. *)
Definition record_far_future : Value :=
  Object [("title", Str "Late"); ("createdAt", Number 1e16)].

Definition record_done : Value :=
  Object [("id", Str "r1"); ("title", Str "Ship"); ("status", Str "Done");
          ("revenue", Null); ("timeTaken", Number (-3));
          ("createdAt", Number 86400000)].

End Load.

(* ===================================================================== *)
(** ** The task store *)
(* ===================================================================== *)

Module Store.

(** The hook is modelled as the transition functions of its two pieces of
    state.  [addTask], [updateTask] and [deleteTask] do all their work inside
    the [setTasks] updater, on the state the calls before them left.
    [undoDelete] is different: its test and the task it re-inserts are the
    [lastDeleted] of the render that created the callback, not the one a
    call of the same batch has just written, so it takes that render-time
    value as an argument of its own.  Arguments are well typed: a key of a
    patch, when present, holds a value of the field's type, and only the two
    optional fields may hold [undefined].  [new Date()] is a valid date, so
    its [toISOString] is the rendering of the clock reading. *)

(** The canonical [Task] of the typed part of the hook.  [priority] and
    [status] are string enumerations at run time; [notes] and [completedAt]
    are optional ([None] stands for [undefined]). *)
Record Task : Type := {
  id : string;
  title : string;
  revenue : float;
  timeTaken : float;
  priority : string;
  status : string;
  notes : option string;
  createdAt : string;
  completedAt : option string
}.

(** The argument of [addTask]: [Omit<Task, 'id'> & { id?: string }]. *)
Record NewTask : Type := {
  n_id : option string;
  n_title : string;
  n_revenue : float;
  n_timeTaken : float;
  n_priority : string;
  n_status : string;
  n_notes : option string;
  n_createdAt : string;
  n_completedAt : option string
}.

(** A [Partial<Task>]: [None] when the patch has no such key.  For the two
    optional fields a key may be present and hold [undefined]
    ([Some None]). *)
Record Patch : Type := {
  p_id : option string;
  p_title : option string;
  p_revenue : option float;
  p_timeTaken : option float;
  p_priority : option string;
  p_status : option string;
  p_notes : option (option string);
  p_createdAt : option string;
  p_completedAt : option (option string)
}.

(** The two pieces of React state the mutations act on. *)
Record State : Type := {
  tasks : list Task;
  lastDeleted : option Task
}.

(** What one call of [addTask] reads from its environment: [Date.now()] and
    [Math.floor(Math.random() * 10000)] inside [generateId], and the clock
    behind [new Date()]. *)
Record Env : Type := {
  date_now : Z;
  random : Z;
  new_date : Z
}.

(** ToBoolean of a [string | undefined]. *)
Definition truthy (v : option string) : bool :=
  match v with
  | Some s => negb (String.eqb s "")
  | None => false
  end.

(** [a ?? b] with the right operand evaluated on demand. *)
Definition nullish {A} (a : option A) (b : A) : A :=
  match a with
  | Some x => x
  | None => b
  end.

Definition generateId (e : Env) : string :=
  "task-" ++ JS.string_of_Z (date_now e) ++ "-" ++ JS.string_of_Z (random e).

(** The task [addTask] stores: the spread of the argument overridden by
    [id], [timeTaken], [createdAt] and [completedAt]. *)
Definition newTask (e : Env) (task : NewTask) : Task :=
  let id := nullish (n_id task) (generateId e) in
  let timeTaken := n_timeTaken task in
  let createdAt := JS.iso_of_time (new_date e) in
  let status := n_status task in
  let completedAt := if String.eqb status "Done" then Some createdAt else None in
  {| id := id;
     title := n_title task;
     revenue := n_revenue task;
     timeTaken := timeTaken;
     priority := n_priority task;
     status := n_status task;
     notes := n_notes task;
     createdAt := createdAt;
     completedAt := completedAt |}.

Definition addTask (e : Env) (task : NewTask) (s : State) : State :=
  {| tasks := newTask e task :: tasks s;
     lastDeleted := lastDeleted s |}.

(** [{ ...t, ...patch }]: the patch wins on every key it has. *)
Definition merge (t : Task) (patch : Patch) : Task :=
  {| id := nullish (p_id patch) (id t);
     title := nullish (p_title patch) (title t);
     revenue := nullish (p_revenue patch) (revenue t);
     timeTaken := nullish (p_timeTaken patch) (timeTaken t);
     priority := nullish (p_priority patch) (priority t);
     status := nullish (p_status patch) (status t);
     notes := nullish (p_notes patch) (notes t);
     createdAt := nullish (p_createdAt patch) (createdAt t);
     completedAt := nullish (p_completedAt patch) (completedAt t) |}.

Definition set_completedAt (t : Task) (v : option string) : Task :=
  {| id := id t;
     title := title t;
     revenue := revenue t;
     timeTaken := timeTaken t;
     priority := priority t;
     status := status t;
     notes := notes t;
     createdAt := createdAt t;
     completedAt := v |}.

(** The callback of the [map] in [updateTask]; [now] is the clock behind
    [new Date()]. *)
Definition updateOne (now : Z) (id0 : string) (patch : Patch) (t : Task) : Task :=
  if negb (String.eqb (id t) id0) then t
  else
    let merged := merge t patch in
    if negb (String.eqb (status t) "Done")
       && String.eqb (status merged) "Done"
       && negb (truthy (completedAt merged))
    then set_completedAt merged (Some (JS.iso_of_time now))
    else merged.

Definition updateTask (now : Z) (id0 : string) (patch : Patch) (s : State) : State :=
  {| tasks := map (updateOne now id0 patch) (tasks s);
     lastDeleted := lastDeleted s |}.

(** [prev.find(...) || null] becomes the new [lastDeleted], found or not. *)
Definition deleteTask (id0 : string) (s : State) : State :=
  let target := find (fun t => String.eqb (id t) id0) (tasks s) in
  {| tasks := filter (fun t => negb (String.eqb (id t) id0)) (tasks s);
     lastDeleted := target |}.

(** [rendered] is the [lastDeleted] the callback closed over (its render's
    value); [s] is the state the call acts on.  With nothing rendered as
    pending the callback returns at once, whatever [s] holds. *)
Definition undoDelete (rendered : option Task) (s : State) : State :=
  match rendered with
  | None => s
  | Some t => {| tasks := t :: tasks s; lastDeleted := None |}
  end.

Definition clearHistory (s : State) : State :=
  {| tasks := tasks s; lastDeleted := None |}.

(** The mutation entry points as one transition function, for calls made
    one per render: each call is made by a render that has the state [s]
    committed, so that the closure of [undoDelete] holds the [lastDeleted]
    of [s]. *)
Inductive Op : Type :=
| OpAdd (e : Env) (task : NewTask)
| OpUpdate (now : Z) (id0 : string) (patch : Patch)
| OpDelete (id0 : string)
| OpUndo
| OpClear.

Definition step (s : State) (op : Op) : State :=
  match op with
  | OpAdd e task => addTask e task s
  | OpUpdate now id0 patch => updateTask now id0 patch s
  | OpDelete id0 => deleteTask id0 s
  | OpUndo => undoDelete (lastDeleted s) s
  | OpClear => clearHistory s
  end.

(** A sequence of such calls, each on the render that follows the one
    before. *)
Definition run (s : State) (ops : list Op) : State := fold_left step ops s.

Definition empty_patch : Patch :=
  {| p_id := None; p_title := None; p_revenue := None; p_timeTaken := None;
     p_priority := None; p_status := None; p_notes := None;
     p_createdAt := None; p_completedAt := None |}.

Definition status_patch (st : string) : Patch :=
  {| p_id := None; p_title := None; p_revenue := None; p_timeTaken := None;
     p_priority := None; p_status := Some st; p_notes := None;
     p_createdAt := None; p_completedAt := None |}.

(** Every task the store holds: the collection and the pending undo. *)
Definition held (s : State) : list Task :=
  tasks s ++ match lastDeleted s with Some t => [t] | None => [] end.

(** The argument of [addTask] with other timestamps. *)
Definition with_timestamps (task : NewTask) (c : string) (d : option string) : NewTask :=
  {| n_id := n_id task;
     n_title := n_title task;
     n_revenue := n_revenue task;
     n_timeTaken := n_timeTaken task;
     n_priority := n_priority task;
     n_status := n_status task;
     n_notes := n_notes task;
     n_createdAt := c;
     n_completedAt := d |}.

(** A mutation whose patch, if it has one, carries no [completedAt] key. *)
Definition leaves_completedAt_key (op : Op) : Prop :=
  match op with
  | OpUpdate _ _ patch => p_completedAt patch = None
  | _ => True
  end.

(** An update whose patch carries no [completedAt] key. *)
Definition keyless_update (op : Op) : Prop :=
  match op with
  | OpUpdate _ _ patch => p_completedAt patch = None
  | _ => False
  end.

(** [t'] still holds the [completedAt] that was set on [t]. *)
Definition keeps_completedAt (t t' : Task) : Prop :=
  truthy (completedAt t) = true -> completedAt t' = completedAt t.

(** *** Tasks and states used in statements and examples *)

Definition task_a : Task :=
  {| id := "a"; title := "Call client"; revenue := 100; timeTaken := 2;
     priority := "High"; status := "Todo"; notes := None;
     createdAt := "2024-01-01T00:00:00.000Z"; completedAt := None |}.

Definition task_b : Task :=
  {| id := "b"; title := "Send quote"; revenue := 300; timeTaken := 0;
     priority := "Low"; status := "Done"; notes := Some "sent";
     createdAt := "2024-01-02T00:00:00.000Z";
     completedAt := Some "2024-01-03T00:00:00.000Z" |}.

Definition empty_state : State := {| tasks := []; lastDeleted := None |}.

Definition env_1 : Env :=
  {| date_now := 1700000000000; random := 4711; new_date := 1700000000000 |}.

Definition done_payload : NewTask :=
  {| n_id := Some "t1"; n_title := "Send quote"; n_revenue := 300; n_timeTaken := 2;
     n_priority := "High"; n_status := "Done"; n_notes := None;
     n_createdAt := ""; n_completedAt := None |}.

(** A store reached through the entry points alone: a task added as 'Done'
    and later moved back to 'Todo'. *)
Definition reopened_state : State :=
  run empty_state [OpAdd env_1 done_payload;
                   OpUpdate 1700000100000 "t1" (status_patch "Todo")].

(** A patch that carries the [completedAt] key, holding [v]. *)
Definition completedAt_patch (v : option string) : Patch :=
  {| p_id := None; p_title := None; p_revenue := None; p_timeTaken := None;
     p_priority := None; p_status := None; p_notes := None;
     p_createdAt := None; p_completedAt := Some v |}.

(** *** Side conditions under which identifiers stay unique *)

(** A mutation that cannot introduce a second task with an id the store
    already holds: an [addTask] whose id is new to the store, an
    [updateTask] whose patch carries no [id] key, or any other entry point. *)
Definition keeps_ids_apart (s : State) (op : Op) : Prop :=
  match op with
  | OpAdd e task => ~ In (id (newTask e task)) (map id (held s))
  | OpUpdate _ _ patch => p_id patch = None
  | _ => True
  end.

(** The side condition along a whole sequence of calls. *)
Fixpoint keeps_ids_apart_along (s : State) (ops : list Op) : Prop :=
  match ops with
  | [] => True
  | op :: rest => keeps_ids_apart s op /\ keeps_ids_apart_along (step s op) rest
  end.

(** Whether a string contains the separator ['-'] of [generateId]. *)
Fixpoint has_dash (s : string) : bool :=
  match s with
  | EmptyString => false
  | String c rest => Ascii.eqb c "-" || has_dash rest
  end.

(** A third task, sharing the id of [task_a]. *)
Definition task_a_again : Task :=
  {| id := "a"; title := "Call client again"; revenue := 50; timeTaken := 1;
     priority := "Low"; status := "Todo"; notes := None;
     createdAt := "2024-01-04T00:00:00.000Z"; completedAt := None |}.

End Store.

(* ===================================================================== *)
(** ** The initial load *)
(* ===================================================================== *)

Module Loader.
Import JS Load.

(** What [fetch('/tasks.json')] and [res.json()] come to.  A rejection
    carries what [e?.message] reads from the thrown value: [None] when that
    is null or undefined. *)
Inductive Fetched : Type :=
| FetchRejected (message : option string)
| NotOk (status : Z)
| BodyRejected (message : option string)
| Body (data : Value).

(** The state the effect writes: the three pieces of React state and the
    [fetchedRef] flag.  The tasks are the objects as they are at run time. *)
Record View : Type := {
  tasks : list Task;
  loading : bool;
  error : option string;
  fetched : bool
}.

(** The state of the first render. *)
Definition initial : View :=
  {| tasks := []; loading := true; error := None; fetched := false |}.

(** What the [try] block comes to: the data to store, or the message of
    the exception caught.  [message_of] is the message the host gives its
    own exceptions; [seed] is the result of [generateSalesTasks(50)], a
    function of a module that is not part of these sources. *)
Definition attempt (message_of : Error -> string) (h : Host) (now : Z)
    (seed : list Task) (f : Fetched) : string + list Task :=
  match f with
  | FetchRejected message => inl (Store.nullish message "Failed to load tasks")
  | NotOk status => inl ("Failed to load tasks.json (" ++ string_of_Z status ++ ")")
  | BodyRejected message => inl (Store.nullish message "Failed to load tasks")
  | Body data =>
      match normalizeTasks h now data with
      | Ok normalized =>
          inr (if (0 <? List.length normalized)%nat then normalized else seed)
      | Throw e => inl (message_of e)
      end
  end.

(** The effect once the fetch has settled; [isMounted] is the flag at that
    moment (nothing suspends between the three places that read it). *)
Definition load (message_of : Error -> string) (h : Host) (now : Z)
    (seed : list Task) (isMounted : bool) (f : Fetched) (v : View) : View :=
  if isMounted then
    match attempt message_of h now seed f with
    | inr finalData =>
        {| tasks := finalData; loading := false; error := error v; fetched := true |}
    | inl message =>
        {| tasks := tasks v; loading := false; error := Some message; fetched := true |}
    end
  else v.

(** A host whose exceptions carry their name as message. *)
Definition plain_message (e : Error) : string :=
  match e with
  | TypeError => "TypeError"
  | RangeError => "RangeError"
  end.

End Loader.

(* ===================================================================== *)
(** ** The handlers of the task table *)
(* ===================================================================== *)

Module Table.
Import Store.

(** The value [handleSubmit] receives, [Omit<Task, 'id'> & { id?: string }],
    with the presence of the two optional keys kept apart from their value:
    the rest of the destructuring carries exactly the keys the value has. *)
Record FormValue : Type := {
  f_id : option string;
  f_title : string;
  f_revenue : float;
  f_timeTaken : float;
  f_priority : string;
  f_status : string;
  f_notes : option (option string);
  f_createdAt : string;
  f_completedAt : option (option string)
}.

(** A call of one of the three callbacks the table is given. *)
Inductive Call : Type :=
| OnAdd (payload : NewTask)
| OnUpdate (id0 : string) (patch : Patch)
| OnDelete (id0 : string).

(** [value as Omit<Task, 'id'>]: the same object, read as an [addTask]
    argument. *)
Definition as_payload (value : FormValue) : NewTask :=
  {| n_id := f_id value;
     n_title := f_title value;
     n_revenue := f_revenue value;
     n_timeTaken := f_timeTaken value;
     n_priority := f_priority value;
     n_status := f_status value;
     n_notes := nullish (f_notes value) None;
     n_createdAt := f_createdAt value;
     n_completedAt := nullish (f_completedAt value) None |}.

(** [const { id, ...rest } = value]: every key but [id]. *)
Definition rest (value : FormValue) : Patch :=
  {| p_id := None;
     p_title := Some (f_title value);
     p_revenue := Some (f_revenue value);
     p_timeTaken := Some (f_timeTaken value);
     p_priority := Some (f_priority value);
     p_status := Some (f_status value);
     p_notes := f_notes value;
     p_createdAt := Some (f_createdAt value);
     p_completedAt := f_completedAt value |}.

Definition handleSubmit (value : FormValue) : Call :=
  match f_id value with
  | Some id0 => if truthy (Some id0) then OnUpdate id0 (rest value)
                else OnAdd (as_payload value)
  | None => OnAdd (as_payload value)
  end.

(** The dialog state of the table. *)
Record Dialogs : Type := {
  openForm : bool;
  editing : option Task;
  details : option Task;
  deleteId : option string
}.

Definition closed : Dialogs :=
  {| openForm := false; editing := None; details := None; deleteId := None |}.

Definition handleAddClick (d : Dialogs) : Dialogs :=
  {| openForm := true; editing := None; details := details d; deleteId := deleteId d |}.

Definition handleEditClick (task : Task) (d : Dialogs) : Dialogs :=
  {| openForm := true; editing := Some task; details := details d; deleteId := deleteId d |}.

(** The click on the delete icon of a row: [setdeleteId(t.id)]. *)
Definition clickDelete (t : Task) (d : Dialogs) : Dialogs :=
  {| openForm := openForm d; editing := editing d; details := details d;
     deleteId := Some (id t) |}.

(** Whether the confirmation dialog shows: [open={!!deleteId}]. *)
Definition confirmOpen (d : Dialogs) : bool := truthy (deleteId d).

(** [handleConfirmDelete]: the call it makes, if any, and the new state. *)
Definition handleConfirmDelete (d : Dialogs) : option Call * Dialogs :=
  match deleteId d with
  | Some id0 =>
      if truthy (Some id0)
      then (Some (OnDelete id0),
            {| openForm := openForm d; editing := editing d; details := details d;
               deleteId := None |})
      else (None, d)
  | None => (None, d)
  end.

(** A call carried out by the store, the three callbacks being the hook's
    entry points of the same signatures; [e] is what the entry point reads
    from its environment. *)
Definition perform (e : Env) (c : Call) (s : State) : State :=
  match c with
  | OnAdd payload => addTask e payload s
  | OnUpdate id0 patch => updateTask (new_date e) id0 patch s
  | OnDelete id0 => deleteTask id0 s
  end.

Definition perform_opt (e : Env) (c : option Call) (s : State) : State :=
  match c with
  | Some c => perform e c s
  | None => s
  end.

(** A form value for task a, renamed and marked done. *)
Definition form_a : FormValue :=
  {| f_id := Some "a"; f_title := "Call client (done)"; f_revenue := 100;
     f_timeTaken := 2; f_priority := "High"; f_status := "Done"; f_notes := None;
     f_createdAt := "2024-01-01T00:00:00.000Z"; f_completedAt := None |}.

End Table.

(* ===================================================================== *)
(** ** The runtime model on known values *)
(* ===================================================================== *)

Module JSFacts.
Import JS.

Example iso_epoch : iso_of_time 0 = "1970-01-01T00:00:00.000Z".
Proof. reflexivity. Qed.

Example iso_before_epoch : iso_of_time (-1) = "1969-12-31T23:59:59.999Z".
Proof. reflexivity. Qed.

Example iso_leap_day : iso_of_time 1709251199999 = "2024-02-29T23:59:59.999Z".
Proof. reflexivity. Qed.

Example iso_extended_year : iso_of_time maxTime = "+275760-09-13T00:00:00.000Z".
Proof. reflexivity. Qed.

Example toISOString_invalid : toISOString (TimeClip (maxTime + 1)) = Throw RangeError.
Proof. reflexivity. Qed.

Example ToNumber_undefined (h : Host) :
  PrimFloat.is_nan (ToNumber h Undefined) = true.
Proof. reflexivity. Qed.

Example nan_not_at_least_zero : PrimFloat.leb 0 PrimFloat.nan = false.
Proof. reflexivity. Qed.

Example new_Date_number (h : Host) : new_Date h (Number 1.5) = Some 1.
Proof. reflexivity. Qed.

Example generateId_example :
  Store.generateId Store.env_1 = "task-1700000000000-4711".
Proof. reflexivity. Qed.

End JSFacts.

Module StoreFacts.
Import Store.

(* ===================================================================== *)
(** ** Lists of tasks and identifiers *)
(* ===================================================================== *)

Lemma eqb_id_false (t : Task) (id0 : string) (l : list Task) :
  ~ In id0 (map id l) -> In t l -> String.eqb (id t) id0 = false.
Proof.
  intros Hnot Hin. apply String.eqb_neq. intros Heq. apply Hnot.
  rewrite <- Heq. now apply in_map.
Qed.

Lemma filter_unknown_id (id0 : string) (l : list Task) :
  ~ In id0 (map id l) ->
  filter (fun t => negb (String.eqb (id t) id0)) l = l.
Proof.
  intros Hnot. apply forallb_filter_id. apply forallb_forall.
  intros t Hin. now rewrite (eqb_id_false t id0 l).
Qed.

Lemma find_unknown_id (id0 : string) (l : list Task) :
  ~ In id0 (map id l) ->
  find (fun t => String.eqb (id t) id0) l = None.
Proof.
  intros Hnot. destruct (find _ l) as [t|] eqn:Hfind; [|reflexivity].
  apply find_some in Hfind. destruct Hfind as [Hin Heq].
  now rewrite (eqb_id_false t id0 l) in Heq.
Qed.

Lemma map_updateOne_unknown_id (now : Z) (id0 : string) (patch : Patch) (l : list Task) :
  ~ In id0 (map id l) ->
  map (updateOne now id0 patch) l = l.
Proof.
  intros Hnot. rewrite <- (map_id l) at 2. apply map_ext_in.
  intros t Hin. unfold updateOne. now rewrite (eqb_id_false t id0 l).
Qed.

(** With unique identifiers, [find] by identifier returns the very task. *)
Lemma find_unique_id (t : Task) (l : list Task) :
  NoDup (map id l) -> In t l ->
  find (fun u => String.eqb (id u) (id t)) l = Some t.
Proof.
  induction l as [|a l IH]; simpl; intros Hnd Hin; [contradiction|].
  inversion Hnd as [|? ? Hhead Htail]; subst.
  destruct Hin as [-> | Hin].
  - now rewrite String.eqb_refl.
  - destruct (String.eqb (id a) (id t)) eqn:Heq; [|now apply IH].
    apply String.eqb_eq in Heq. exfalso. apply Hhead. rewrite Heq. now apply in_map.
Qed.

Lemma filter_keeps_NoDup_id (f : Task -> bool) (l : list Task) :
  NoDup (map id l) -> NoDup (map id (filter f l)).
Proof.
  induction l as [|a l IH]; simpl; intros Hnd; [constructor|].
  inversion Hnd as [|? ? Hhead Htail]; subst.
  destruct (f a); simpl; [|now apply IH].
  constructor; [|now apply IH].
  intros Hin. apply Hhead. apply in_map_iff in Hin. destruct Hin as [u [Hu Hin]].
  apply filter_In in Hin. rewrite <- Hu. apply in_map. tauto.
Qed.

Lemma distinct_tasks_distinct_ids (a b : Task) (l : list Task) :
  NoDup (map id l) -> In a l -> In b l -> a <> b -> id a <> id b.
Proof.
  induction l as [|x l IH]; simpl; intros Hnd Ha Hb Hab; [contradiction|].
  inversion Hnd as [|? ? Hhead Htail]; subst.
  destruct Ha as [-> | Ha]; destruct Hb as [-> | Hb].
  - congruence.
  - intros Heq. apply Hhead. rewrite Heq. now apply in_map.
  - intros Heq. apply Hhead. rewrite <- Heq. now apply in_map.
  - now apply IH.
Qed.

(* ===================================================================== *)
(** ** Deleting and updating with an identifier the store does not hold *)
(* ===================================================================== *)

(** C1, as the code has it: for every id that matches no task of the
    collection, [deleteTask] leaves the collection unchanged and sets
    [lastDeleted] to null, dropping a task held there; it acts as
    [clearHistory]. *)
Theorem deleteTask_unknown_id (id0 : string) (s : State) :
  ~ In id0 (map id (tasks s)) ->
  tasks (deleteTask id0 s) = tasks s /\
  lastDeleted (deleteTask id0 s) = None /\
  deleteTask id0 s = clearHistory s.
Proof.
  intros Hnot. unfold deleteTask, clearHistory. simpl.
  rewrite (filter_unknown_id id0 _ Hnot), (find_unknown_id id0 _ Hnot).
  repeat split.
Qed.

Lemma deleteTask_unknown_id_witness :
  ~ In "zzz" (map id [task_b]) /\
  tasks (deleteTask "zzz" {| tasks := [task_b]; lastDeleted := Some task_a |}) = [task_b] /\
  lastDeleted (deleteTask "zzz" {| tasks := [task_b]; lastDeleted := Some task_a |}) = None /\
  deleteTask "zzz" {| tasks := [task_b]; lastDeleted := Some task_a |}
  = clearHistory {| tasks := [task_b]; lastDeleted := Some task_a |}.
Proof.
  assert (H : ~ In "zzz" (map id [task_b])).
  { simpl. intros [H | []]. discriminate H. }
  split; [exact H|].
  exact (deleteTask_unknown_id "zzz" {| tasks := [task_b]; lastDeleted := Some task_a |} H).
Defined.

(** C1 as stated fails: the store holds b and a pending undo of a; deleting
    the unknown id "zzz" keeps the collection but the pending undo of a is no
    longer held. *)
Lemma deleteTask_unknown_id_drops_undo :
  let s := {| tasks := [task_b]; lastDeleted := Some task_a |} in
  ~ In "zzz" (map id (tasks s)) /\
  tasks (deleteTask "zzz" s) = tasks s /\
  lastDeleted s = Some task_a /\
  lastDeleted (deleteTask "zzz" s) <> lastDeleted s.
Proof.
  simpl. repeat split.
  - intros [H | []]. discriminate H.
  - discriminate.
Qed.

(** C8: for every id absent from the collection and every patch,
    [updateTask] changes nothing: the state it returns (a total function,
    nothing is thrown) equals the prior one, collection and lastDeleted. *)
Theorem updateTask_unknown_id (now : Z) (id0 : string) (patch : Patch) (s : State) :
  ~ In id0 (map id (tasks s)) ->
  updateTask now id0 patch s = s.
Proof.
  intros Hnot. unfold updateTask.
  rewrite (map_updateOne_unknown_id now id0 patch _ Hnot).
  now destruct s.
Qed.

Lemma updateTask_unknown_id_witness :
  ~ In "zzz" (map id [task_a; task_b]) /\
  updateTask 1700000000000 "zzz" (status_patch "Done")
    {| tasks := [task_a; task_b]; lastDeleted := None |}
  = {| tasks := [task_a; task_b]; lastDeleted := None |}.
Proof.
  assert (H : ~ In "zzz" (map id [task_a; task_b])).
  { simpl. intros [H | [H | []]]; discriminate H. }
  split; [exact H|].
  exact (updateTask_unknown_id 1700000000000 "zzz" (status_patch "Done")
           {| tasks := [task_a; task_b]; lastDeleted := None |} H).
Defined.

(* ===================================================================== *)
(** ** Adding, deleting and undoing *)
(* ===================================================================== *)

Lemma deleteTask_new_task (e : Env) (task : NewTask) (s : State) :
  deleteTask (id (newTask e task)) (addTask e task s)
  = {| tasks := filter (fun t => negb (String.eqb (id t) (id (newTask e task)))) (tasks s);
       lastDeleted := Some (newTask e task) |}.
Proof.
  unfold deleteTask, addTask. cbn [tasks lastDeleted find filter].
  now rewrite String.eqb_refl.
Qed.

(** C6 as stated fails: with nothing pending at the render, [addTask],
    [deleteTask] of the new id and [undoDelete] called in one batch end with
    the added task out of the collection and held as [lastDeleted]: the
    closure of [undoDelete] still has the render's null and returns at once. *)
Lemma undo_in_the_batch_of_the_delete :
  let s := {| tasks := [task_a; task_b]; lastDeleted := None |} in
  let t := newTask env_1 done_payload in
  let s' := undoDelete (lastDeleted s) (deleteTask (id t) (addTask env_1 done_payload s)) in
  tasks s' = [task_a; task_b] /\
  ~ In t (tasks s') /\
  lastDeleted s' = Some t /\
  lastDeleted s' <> None.
Proof.
  cbv zeta. split; [reflexivity|]. split; [|split; [reflexivity | discriminate]].
  intros [H | [H | []]]; discriminate H.
Qed.

(** C6, as the code has it: for every payload, [addTask], then [deleteTask]
    of the new task's id, then [undoDelete] called by a render that has the
    deletion committed (its closure holds the deleted task) leaves the added
    task, equal in all fields, in the collection (at its front), and
    [lastDeleted] is null. *)
Theorem add_delete_undo (e : Env) (task : NewTask) (s : State) :
  let t := newTask e task in
  let deleted := deleteTask (id t) (addTask e task s) in
  let s' := undoDelete (lastDeleted deleted) deleted in
  hd_error (tasks (addTask e task s)) = Some t /\
  lastDeleted deleted = Some t /\
  In t (tasks s') /\
  hd_error (tasks s') = Some t /\
  lastDeleted s' = None.
Proof.
  cbv zeta. rewrite deleteTask_new_task. unfold undoDelete. cbn.
  repeat split. now left.
Qed.

(** When the new id is fresh, the round trip restores the collection as
    [addTask] left it. *)
Lemma add_delete_undo_fresh (e : Env) (task : NewTask) (s : State) :
  ~ In (id (newTask e task)) (map id (tasks s)) ->
  tasks (undoDelete (lastDeleted (deleteTask (id (newTask e task)) (addTask e task s)))
                    (deleteTask (id (newTask e task)) (addTask e task s)))
  = tasks (addTask e task s).
Proof.
  intros Hfresh. rewrite deleteTask_new_task. unfold undoDelete, addTask.
  cbn [tasks lastDeleted]. now rewrite (filter_unknown_id _ _ Hfresh).
Qed.

(** C7 as stated fails: two distinct tasks A and B of the collection that
    share an id; deleting A removes both, deleting B finds nothing and leaves
    null as [lastDeleted], and [undoDelete], even on a render that has all
    this committed, restores nothing: B is not back. *)
Lemma delete_delete_undo_with_shared_id :
  let s := {| tasks := [task_a; task_a_again; task_b]; lastDeleted := None |} in
  let deleted := deleteTask (id task_a_again) (deleteTask (id task_a) s) in
  let s' := undoDelete (lastDeleted deleted) deleted in
  In task_a (tasks s) /\ In task_a_again (tasks s) /\ task_a <> task_a_again /\
  tasks s' = [task_b] /\
  ~ In task_a_again (tasks s') /\
  lastDeleted s' = None.
Proof.
  cbv zeta. split; [now left|]. split; [right; now left|]. split; [discriminate|].
  split; [reflexivity|]. split; [|reflexivity].
  intros [H | []]. discriminate H.
Qed.

(** C7, as the code has it: for every two distinct tasks A and B of a
    collection with unique ids, deleting A, then deleting B, then
    [undoDelete] called by a render that has the deletions committed puts B,
    and only B, back (at the front of what is left); A is in neither the
    collection nor the undo slot, and an [undoDelete] on the render after
    that changes nothing. *)
Theorem delete_delete_undo (a b : Task) (s : State) :
  NoDup (map id (tasks s)) -> In a (tasks s) -> In b (tasks s) -> a <> b ->
  let deleted := deleteTask (id b) (deleteTask (id a) s) in
  let s' := undoDelete (lastDeleted deleted) deleted in
  lastDeleted deleted = Some b /\
  tasks s' = b :: filter (fun t => negb (String.eqb (id t) (id b)))
                    (filter (fun t => negb (String.eqb (id t) (id a))) (tasks s)) /\
  In b (tasks s') /\
  ~ In a (held s') /\
  lastDeleted s' = None /\
  undoDelete (lastDeleted s') s' = s'.
Proof.
  intros Hnd Ha Hb Hab.
  assert (Hid : id a <> id b) by now apply (distinct_tasks_distinct_ids a b (tasks s)).
  set (rest := filter (fun t => negb (String.eqb (id t) (id a))) (tasks s)).
  assert (Hb' : In b rest).
  { apply filter_In. split; [assumption|].
    apply negb_true_iff, String.eqb_neq. congruence. }
  assert (Hfind : find (fun t => String.eqb (id t) (id b)) rest = Some b).
  { apply find_unique_id; [|assumption]. now apply filter_keeps_NoDup_id. }
  cbv zeta. unfold undoDelete, deleteTask. cbn [tasks lastDeleted].
  fold rest. rewrite Hfind. unfold held. cbn [tasks lastDeleted].
  split; [reflexivity|]. repeat split.
  - now left.
  - rewrite app_nil_r. intros [Heq | Hin]; [congruence|].
    apply filter_In in Hin. destruct Hin as [Hin _].
    apply filter_In in Hin. destruct Hin as [_ Hne].
    now rewrite String.eqb_refl in Hne.
Qed.

Lemma delete_delete_undo_witness :
  NoDup (map id [task_a; task_b]) /\ task_a <> task_b /\
  tasks (undoDelete
           (lastDeleted (deleteTask "b" (deleteTask "a"
                           {| tasks := [task_a; task_b]; lastDeleted := None |})))
           (deleteTask "b" (deleteTask "a"
              {| tasks := [task_a; task_b]; lastDeleted := None |}))) = [task_b].
Proof.
  assert (Hnd : NoDup (map id [task_a; task_b])).
  { simpl. repeat constructor; simpl; intuition discriminate. }
  assert (Hab : task_a <> task_b) by discriminate.
  split; [exact Hnd|]. split; [exact Hab|].
  exact (proj1 (proj2 (delete_delete_undo task_a task_b
                         {| tasks := [task_a; task_b]; lastDeleted := None |}
                         Hnd (or_introl eq_refl) (or_intror (or_introl eq_refl)) Hab))).
Defined.

(** C10: for every payload, the task [addTask] stores (at the front of the
    collection) has [createdAt] equal to the current time of the call and
    [completedAt] equal to that same time when the payload status is 'Done'
    and undefined otherwise; the payload's own [createdAt] and [completedAt]
    play no part in it. *)
Theorem addTask_timestamps (e : Env) (task : NewTask) (s : State) :
  tasks (addTask e task s) = newTask e task :: tasks s /\
  createdAt (newTask e task) = JS.iso_of_time (new_date e) /\
  completedAt (newTask e task)
  = (if String.eqb (n_status task) "Done" then Some (JS.iso_of_time (new_date e)) else None) /\
  forall c d, newTask e (with_timestamps task c d) = newTask e task.
Proof.
  repeat split.
Qed.

(* ===================================================================== *)
(** ** Completion timestamps under [updateTask] *)
(* ===================================================================== *)

Lemma nullish_twice {A} (a : option A) (b : A) :
  nullish a (nullish a b) = nullish a b.
Proof. now destruct a. Qed.

Lemma merge_twice (t : Task) (patch : Patch) :
  merge (merge t patch) patch = merge t patch.
Proof. unfold merge. cbn. now rewrite !nullish_twice. Qed.

Lemma merge_stamped (t : Task) (patch : Patch) (v : option string) :
  p_completedAt patch = None ->
  merge (set_completedAt (merge t patch) v) patch = set_completedAt (merge t patch) v.
Proof.
  intros Hkey. unfold merge, set_completedAt. cbn.
  rewrite !nullish_twice, Hkey. reflexivity.
Qed.

(** Once a patch has been merged in, merging it again cannot be a move
    into 'Done'. *)
Lemma no_second_transition (u : Task) (patch : Patch) (st : string) :
  status u = nullish (p_status patch) st ->
  negb (String.eqb (status u) "Done") && String.eqb (status (merge u patch)) "Done" = false.
Proof.
  intros Hst. cbn. rewrite Hst, nullish_twice.
  now destruct (String.eqb (nullish (p_status patch) st) "Done").
Qed.

Lemma updateOne_matched (now : Z) (id0 : string) (patch : Patch) (t : Task) :
  String.eqb (id t) id0 = true ->
  p_completedAt patch = None ->
  status (updateOne now id0 patch t) = nullish (p_status patch) (status t) /\
  merge (updateOne now id0 patch t) patch = updateOne now id0 patch t.
Proof.
  intros Hid Hkey. unfold updateOne. rewrite Hid. cbn [negb].
  match goal with |- context [if ?c then _ else _] => destruct c end.
  - split; [reflexivity | now apply merge_stamped].
  - split; [reflexivity | apply merge_twice].
Qed.

Lemma updateOne_twice (now now' : Z) (id0 : string) (patch : Patch) (t : Task) :
  p_completedAt patch = None ->
  updateOne now' id0 patch (updateOne now id0 patch t) = updateOne now id0 patch t.
Proof.
  intros Hkey. destruct (String.eqb (id t) id0) eqn:Hid.
  - destruct (updateOne_matched now id0 patch t Hid Hkey) as [Hst Hm].
    set (u := updateOne now id0 patch t) in *.
    unfold updateOne. destruct (String.eqb (id u) id0); cbn [negb]; [|reflexivity].
    rewrite (no_second_transition u patch _ Hst). cbn [andb]. exact Hm.
  - assert (Hu : updateOne now id0 patch t = t) by (unfold updateOne; now rewrite Hid).
    rewrite Hu. unfold updateOne. now rewrite Hid.
Qed.

Lemma updateTask_twice (now now' : Z) (id0 : string) (patch : Patch) (s : State) :
  p_completedAt patch = None ->
  updateTask now' id0 patch (updateTask now id0 patch s) = updateTask now id0 patch s.
Proof.
  intros Hkey. unfold updateTask. cbn [tasks lastDeleted]. f_equal.
  rewrite map_map. apply map_ext. intros t. now apply updateOne_twice.
Qed.

(** C4 as stated fails: the task of [reopened_state] is not 'Done', the
    patch moves it to 'Done' and carries no [completedAt], yet the update
    leaves the [completedAt] of the first completion in place instead of the
    current time. *)
Lemma updateTask_keeps_first_completion :
  let now := 1700000200000 in
  let s' := updateTask now "t1" (status_patch "Done") reopened_state in
  map id (tasks reopened_state) = ["t1"] /\
  map status (tasks reopened_state) = ["Todo"] /\
  p_completedAt (status_patch "Done") = None /\
  map status (tasks s') = ["Done"] /\
  map completedAt (tasks s') = [Some "2023-11-14T22:13:20.000Z"] /\
  map completedAt (tasks s') <> [Some (JS.iso_of_time now)].
Proof.
  vm_compute. repeat split. discriminate.
Qed.

(** C4, as the code has it: for a task of the collection that is not
    'Done' and holds no [completedAt], and a patch that sets the status to
    'Done' and has no [completedAt] key, [updateTask] sets the task's
    [completedAt] to the current time; applying the same update again, at
    any later time, changes nothing. *)
Theorem updateTask_stamps_completion
    (now : Z) (id0 : string) (patch : Patch) (s : State) (i : nat) (t : Task) :
  nth_error (tasks s) i = Some t ->
  id t = id0 ->
  status t <> "Done" ->
  truthy (completedAt t) = false ->
  p_status patch = Some "Done" ->
  p_completedAt patch = None ->
  let s' := updateTask now id0 patch s in
  (exists t', nth_error (tasks s') i = Some t' /\
              status t' = "Done" /\
              completedAt t' = Some (JS.iso_of_time now)) /\
  (forall now', updateTask now' id0 patch s' = s').
Proof.
  intros Hnth Hid Hst Hnone Hpst Hkey. cbv zeta. split.
  - exists (updateOne now id0 patch t). split.
    + unfold updateTask. cbn [tasks]. now apply map_nth_error.
    + unfold updateOne. rewrite Hid, String.eqb_refl. cbn [negb].
      apply String.eqb_neq in Hst. rewrite Hst. cbn [negb andb merge status completedAt].
      rewrite Hpst, Hkey. cbn [nullish]. rewrite Hnone.
      cbn [String.eqb Ascii.eqb Bool.eqb andb negb set_completedAt status completedAt merge].
      rewrite Hpst. split; reflexivity.
  - intros now'. now apply updateTask_twice.
Qed.

Lemma updateTask_stamps_completion_witness :
  exists t', nth_error (tasks (updateTask 1700000000000 "a" (status_patch "Done")
                                 {| tasks := [task_b; task_a]; lastDeleted := None |})) 1
             = Some t' /\
             status t' = "Done" /\
             completedAt t' = Some (JS.iso_of_time 1700000000000).
Proof.
  assert (Hst : status task_a <> "Done") by discriminate.
  exact (proj1 (updateTask_stamps_completion 1700000000000 "a" (status_patch "Done")
                  {| tasks := [task_b; task_a]; lastDeleted := None |} 1%nat task_a
                  eq_refl eq_refl Hst eq_refl eq_refl eq_refl)).
Defined.

(** The stamp is the clock reading of the update; for a task that [addTask]
    stamped at reading [new_date e], it renders an instant not earlier than
    the one [createdAt] renders whenever the clock did not go back. *)
Lemma add_then_complete (e : Env) (task : NewTask) (now : Z) (s : State) :
  n_status task <> "Done" ->
  new_date e <= now ->
  exists t' c d,
    hd_error (tasks (updateTask now (id (newTask e task)) (status_patch "Done")
                       (addTask e task s))) = Some t' /\
    createdAt t' = JS.iso_of_time c /\
    completedAt t' = Some (JS.iso_of_time d) /\
    c <= d.
Proof.
  intros Hst Hclock.
  exists (updateOne now (id (newTask e task)) (status_patch "Done") (newTask e task)),
         (new_date e), now.
  split; [reflexivity|].
  unfold updateOne. rewrite String.eqb_refl. cbn [negb].
  apply String.eqb_neq in Hst.
  cbn [newTask status merge status_patch p_status nullish completedAt p_completedAt].
  rewrite Hst. cbn. repeat split. exact Hclock.
Qed.

(* ===================================================================== *)
(** ** [completedAt] under every mutation *)
(* ===================================================================== *)

Lemma updateOne_keeps_completedAt (now : Z) (id0 : string) (patch : Patch) (t : Task) :
  p_completedAt patch = None ->
  keeps_completedAt t (updateOne now id0 patch t).
Proof.
  intros Hkey Hset. unfold updateOne.
  destruct (String.eqb (id t) id0); cbn [negb]; [|reflexivity].
  cbn [merge completedAt]. rewrite Hkey. cbn [nullish]. rewrite Hset.
  rewrite andb_false_r. cbn [merge completedAt]. now rewrite Hkey.
Qed.

(** Position by position, [updateTask] keeps every [completedAt] that is
    set, whatever the patch does to the status. *)
Lemma updateTask_keeps_completedAt (now : Z) (id0 : string) (patch : Patch) (s : State) :
  p_completedAt patch = None ->
  Forall2 keeps_completedAt (tasks s) (tasks (updateTask now id0 patch s)) /\
  lastDeleted (updateTask now id0 patch s) = lastDeleted s.
Proof.
  intros Hkey. split; [|reflexivity].
  unfold updateTask. cbn [tasks].
  induction (tasks s) as [|t l IH]; cbn [map]; constructor; [|exact IH].
  now apply updateOne_keeps_completedAt.
Qed.

Lemma keeps_completedAt_trans (t t' t'' : Task) :
  keeps_completedAt t t' -> keeps_completedAt t' t'' -> keeps_completedAt t t''.
Proof.
  unfold keeps_completedAt. intros H1 H2 Hset.
  specialize (H1 Hset). rewrite <- H1 in Hset. rewrite (H2 Hset). exact H1.
Qed.

Lemma Forall2_keeps_refl (l : list Task) : Forall2 keeps_completedAt l l.
Proof. induction l; constructor; [now intros _ | assumption]. Qed.

Lemma Forall2_keeps_trans (l l' l'' : list Task) :
  Forall2 keeps_completedAt l l' -> Forall2 keeps_completedAt l' l'' ->
  Forall2 keeps_completedAt l l''.
Proof.
  intros H. revert l''. induction H as [|t t' l l' Ht _ IH]; intros l'' H'.
  - inversion H'; subst. constructor.
  - inversion H' as [|? t'' ? m Ht' Hrest]; subst. constructor.
    + now apply (keeps_completedAt_trans t t' t'').
    + now apply IH.
Qed.

(** Through any sequence of such updates, whatever they do to the status,
    every task of the collection keeps the [completedAt] it had. *)
Lemma updates_keep_completedAt (ops : list Op) :
  Forall keyless_update ops ->
  forall s, Forall2 keeps_completedAt (tasks s) (tasks (run s ops)).
Proof.
  unfold run. induction 1 as [|op ops Hop _ IH]; intros s; cbn [fold_left].
  - apply Forall2_keeps_refl.
  - apply (Forall2_keeps_trans _ (tasks (step s op))); [|apply IH].
    destruct op as [| now id0 patch | | |]; try contradiction.
    now apply updateTask_keeps_completedAt.
Qed.

Lemma held_deleteTask (id0 : string) (s : State) (t : Task) :
  In t (held (deleteTask id0 s)) -> In t (tasks s).
Proof.
  unfold held, deleteTask. cbn [tasks lastDeleted]. intros Hin.
  apply in_app_or in Hin. destruct Hin as [Hin | Hin].
  - apply filter_In in Hin. tauto.
  - destruct (find _ (tasks s)) as [u|] eqn:Hfind; [|contradiction].
    destruct Hin as [<- | []]. apply find_some in Hfind. tauto.
Qed.

Lemma held_undoDelete (s : State) (t : Task) :
  In t (held (undoDelete (lastDeleted s) s)) -> In t (held s).
Proof.
  unfold undoDelete. destruct (lastDeleted s) as [u|] eqn:Hpending; [|tauto].
  unfold held. rewrite Hpending. cbn [tasks lastDeleted]. rewrite app_nil_r.
  intros [<- | Hin]; apply in_or_app.
  - right. now left.
  - now left.
Qed.

(** Whatever render called it, [undoDelete] holds afterwards only tasks
    that were held, or the task of its closure, as it was rendered. *)
Lemma held_undoDelete_any_render (rendered : option Task) (s : State) (t : Task) :
  In t (held (undoDelete rendered s)) -> In t (held s) \/ rendered = Some t.
Proof.
  unfold undoDelete. destruct rendered as [u|]; [|now left].
  unfold held. cbn [tasks lastDeleted]. rewrite app_nil_r.
  intros [<- | Hin]; [now right | left; apply in_or_app; now left].
Qed.

Lemma held_clearHistory (s : State) (t : Task) :
  In t (held (clearHistory s)) -> In t (held s).
Proof.
  unfold held, clearHistory. cbn [tasks lastDeleted]. rewrite app_nil_r.
  intros Hin. apply in_or_app. now left.
Qed.

(** C5 as stated fails: task b has its [completedAt] set; an update whose
    patch carries the [completedAt] key clears it (key holding undefined) or
    replaces it (key holding another timestamp). *)
Lemma updateTask_patch_overrides_completedAt :
  let s := {| tasks := [task_b]; lastDeleted := None |} in
  truthy (completedAt task_b) = true /\
  map completedAt (tasks (updateTask 1700000000000 "b" (completedAt_patch None) s)) = [None] /\
  map completedAt (tasks (updateTask 1700000000000 "b"
                            (completedAt_patch (Some "2030-01-01T00:00:00.000Z")) s))
  = [Some "2030-01-01T00:00:00.000Z"] /\
  ~ Forall2 keeps_completedAt (tasks s)
      (tasks (updateTask 1700000000000 "b" (completedAt_patch None) s)).
Proof.
  cbv zeta. repeat split.
  intros H. inversion H as [|? ? ? ? Hkeep _]; subst.
  specialize (Hkeep eq_refl). discriminate Hkeep.
Qed.

(** C5, as the code has it: under every mutation other than an update whose
    patch itself carries the [completedAt] key, each task the store holds
    afterwards (in the collection or as lastDeleted) is the task [addTask]
    just created, or a task held before, unchanged or passed through
    [updateOne], whose [completedAt], when it was set, is still the same,
    whatever happened to its status. *)
Theorem completedAt_is_kept (s : State) (op : Op) (t' : Task) :
  leaves_completedAt_key op ->
  In t' (held (step s op)) ->
  (exists e task, op = OpAdd e task /\ t' = newTask e task) \/
  (exists t, In t (held s) /\
             (t' = t \/ exists now id0 patch,
                          op = OpUpdate now id0 patch /\ t' = updateOne now id0 patch t) /\
             keeps_completedAt t t').
Proof.
  intros Hkey Hin.
  assert (Hsame : In t' (held s) ->
            exists t, In t (held s) /\
              (t' = t \/ exists now id0 patch,
                           op = OpUpdate now id0 patch /\ t' = updateOne now id0 patch t) /\
              keeps_completedAt t t').
  { intros H. exists t'. split; [exact H|]. split; [now left | now intros _]. }
  destruct op as [e task | now id0 patch | id0 | | ]; cbn [step] in Hin.
  - unfold held, addTask in Hin. cbn [tasks lastDeleted] in Hin.
    destruct Hin as [<- | Hin]; [left; now exists e, task | right; now apply Hsame].
  - right. cbn in Hkey. unfold held, updateTask in Hin. cbn [tasks lastDeleted] in Hin.
    apply in_app_or in Hin. destruct Hin as [Hin | Hin].
    + apply in_map_iff in Hin. destruct Hin as [t [<- Hin]].
      exists t. split; [unfold held; apply in_or_app; now left|].
      split; [right; now exists now, id0, patch|].
      now apply updateOne_keeps_completedAt.
    + apply Hsame. unfold held. apply in_or_app. now right.
  - right. apply Hsame. unfold held. apply in_or_app. left.
    now apply (held_deleteTask id0).
  - right. apply Hsame. now apply held_undoDelete.
  - right. apply Hsame. now apply held_clearHistory.
Qed.

Lemma completedAt_is_kept_witness :
  leaves_completedAt_key (OpUpdate 1700000000000 "b" (status_patch "Todo")) /\
  In (updateOne 1700000000000 "b" (status_patch "Todo") task_b)
     (held (step {| tasks := [task_a; task_b]; lastDeleted := None |}
                 (OpUpdate 1700000000000 "b" (status_patch "Todo")))) /\
  status (updateOne 1700000000000 "b" (status_patch "Todo") task_b) = "Todo" /\
  completedAt (updateOne 1700000000000 "b" (status_patch "Todo") task_b)
  = Some "2024-01-03T00:00:00.000Z" /\
  ((exists e task, OpUpdate 1700000000000 "b" (status_patch "Todo") = OpAdd e task /\
                   updateOne 1700000000000 "b" (status_patch "Todo") task_b = newTask e task) \/
   (exists t, In t (held {| tasks := [task_a; task_b]; lastDeleted := None |}) /\
      (updateOne 1700000000000 "b" (status_patch "Todo") task_b = t \/
       exists now id0 patch,
         OpUpdate 1700000000000 "b" (status_patch "Todo") = OpUpdate now id0 patch /\
         updateOne 1700000000000 "b" (status_patch "Todo") task_b = updateOne now id0 patch t) /\
      keeps_completedAt t (updateOne 1700000000000 "b" (status_patch "Todo") task_b))).
Proof.
  assert (Hkey : leaves_completedAt_key (OpUpdate 1700000000000 "b" (status_patch "Todo")))
    by reflexivity.
  assert (Hin : In (updateOne 1700000000000 "b" (status_patch "Todo") task_b)
                  (held (step {| tasks := [task_a; task_b]; lastDeleted := None |}
                              (OpUpdate 1700000000000 "b" (status_patch "Todo")))))
    by (right; left; reflexivity).
  split; [exact Hkey|]. split; [exact Hin|]. split; [reflexivity|]. split; [reflexivity|].
  exact (completedAt_is_kept _ _ _ Hkey Hin).
Defined.

End StoreFacts.

(* ===================================================================== *)
(** ** Normalisation of raw records *)
(* ===================================================================== *)

Module LoadFacts.
Import JS Load.

Lemma map_indexed_nth {A B} (f : A -> nat -> result B) (items : list A) :
  forall idx out, map_indexed f idx items = Ok out ->
  forall i t, nth_error items i = Some t ->
  exists o, nth_error out i = Some o /\ f t (idx + i)%nat = Ok o.
Proof.
  induction items as [|a items IH]; intros idx out Hmap i t Hnth.
  - destruct i; discriminate Hnth.
  - cbn [map_indexed] in Hmap.
    destruct (f a idx) as [y|] eqn:Hy; [|discriminate Hmap]. cbn [bind] in Hmap.
    destruct (map_indexed f (S idx) items) as [ys|] eqn:Hys; [|discriminate Hmap].
    cbn [bind] in Hmap. injection Hmap as <-.
    destruct i as [|i]; cbn [nth_error] in *.
    + injection Hnth as <-. exists y. now rewrite Nat.add_0_r.
    + destruct (IH (S idx) ys Hys i t Hnth) as [o [Ho Hf]].
      exists o. split; [exact Ho|]. now rewrite Nat.add_succ_r.
Qed.

Lemma bind_Ok {A B} (r : result A) (k : A -> result B) (b : B) :
  bind r k = Ok b -> exists a, r = Ok a /\ k a = Ok b.
Proof. destruct r as [a|]; [now exists a | discriminate]. Qed.

Ltac invert_bind H :=
  let a := fresh "x" in
  let Ha := fresh "Hx" in
  apply bind_Ok in H; destruct H as [a [Ha H]].

(** A record that lacks [createdAt] and is normalised gets the rendering
    of the instant synthesised for its index. *)
Lemma normalizeTask_synthesizes (h : Host) (now : Z) (t : Value) (idx : nat) (o : Task) :
  lacks_createdAt t = true ->
  normalizeTask h now t idx = Ok o ->
  createdAt o = Str (iso_of_time (synthesized_time now idx)).
Proof.
  unfold lacks_createdAt, normalizeTask, synthesized_time. intros Hlack Hnorm.
  destruct (get t "createdAt") as [v|]; [|discriminate Hlack].
  cbn [bind] in Hnorm. apply negb_true_iff in Hlack. rewrite Hlack in Hnorm.
  do 10 invert_bind Hnorm.
  injection Hnorm as <-. cbn [createdAt]. f_equal.
  unfold Date_of_number, TimeClip, toISOString in *.
  match goal with
  | Hiso : match (if ?c then _ else _) with _ => _ end = Ok _ |- _ =>
      destruct c; [now injection Hiso as <- | discriminate Hiso]
  end.
Qed.

Lemma synthesized_time_decreasing (now : Z) (i j : nat) :
  (i < j)%nat ->
  synthesized_time now j < synthesized_time now i /\ synthesized_time now i < now.
Proof. unfold synthesized_time. lia. Qed.

(** A record that lacks [createdAt] is normalised without an exception as
    long as the synthesised day and the day after it are representable. *)
Lemma normalizeTask_untimed_returns (h : Host) (now : Z) (t : Value) (idx : nat) :
  lacks_createdAt t = true ->
  - maxTime <= synthesized_time now idx ->
  now <= maxTime ->
  exists o, normalizeTask h now t idx = Ok o.
Proof.
  unfold lacks_createdAt, synthesized_time. intros Hlack Hlow Hhigh.
  assert (Hclip : forall k, 0 <= k <= 86400000 ->
            TimeClip (now - (Z.of_nat idx + 1) * 24 * 3600 * 1000 + k)
            = Some (now - (Z.of_nat idx + 1) * 24 * 3600 * 1000 + k)).
  { intros k Hk. unfold TimeClip.
    replace (Z.abs _ <=? maxTime) with true; [reflexivity|].
    symmetry. apply Z.leb_le. unfold maxTime in *. lia. }
  assert (Hclip0 := Hclip 0 ltac:(lia)). rewrite Z.add_0_r in Hclip0.
  assert (Hclip1 := Hclip (24 * 3600 * 1000) ltac:(lia)).
  unfold normalizeTask.
  destruct t; cbn [get] in *; try discriminate Hlack; cbn [bind];
    apply negb_true_iff in Hlack; rewrite Hlack;
    unfold Date_of_number, getTime, plus; rewrite Hclip0;
    repeat match goal with
           | |- context [if truthy ?v then _ else _] => destruct (truthy v)
           | |- context [if strict_eq_string ?v ?l then _ else _] =>
               destruct (strict_eq_string v l)
           end;
    cbn [bind toISOString]; rewrite ?Hclip1; cbn [bind toISOString];
    eexists; reflexivity.
Qed.

Lemma map_indexed_untimed_returns (h : Host) (now : Z) (items : list Value) :
  Forall (fun t => lacks_createdAt t = true) items ->
  now <= maxTime ->
  forall idx,
    - maxTime <= now - Z.of_nat (idx + List.length items) * 86400000 ->
    exists out, map_indexed (normalizeTask h now) idx items = Ok out.
Proof.
  intros Hall Hhigh. induction Hall as [|t items Ht _ IH]; intros idx Hlow.
  - now exists [].
  - cbn [map_indexed]. cbn [List.length] in Hlow.
    destruct (normalizeTask_untimed_returns h now t idx Ht) as [o Ho];
      [unfold synthesized_time; lia | exact Hhigh |].
    rewrite Ho. cbn [bind].
    destruct (IH (S idx)) as [out Hout];
      [replace (S idx + List.length items)%nat with (idx + S (List.length items))%nat by lia;
       exact Hlow|].
    rewrite Hout. cbn [bind]. now eexists.
Qed.

(** Normalisation returns on every list of records that all lack
    [createdAt], as long as its oldest synthesised day is representable. *)
Lemma normalizeTasks_untimed_returns (h : Host) (now : Z) (elems : list Value) :
  Forall (fun t => lacks_createdAt t = true) elems ->
  now <= maxTime ->
  - maxTime <= now - Z.of_nat (List.length elems) * 86400000 ->
  exists out, normalizeTasks h now (Array elems) = Ok out.
Proof.
  intros Hall Hhigh Hlow. unfold normalizeTasks.
  now apply map_indexed_untimed_returns.
Qed.

(** C3 as stated fails: of two records without [createdAt], the one at
    index 0 is given the later instant (one day before [now]) and the one at
    index 1 the earlier (two days before), so the earlier-indexed record does
    not appear to have been created earlier, neither by the instants nor by
    the rendered ISO texts. *)
Lemma earlier_index_is_not_created_earlier :
  let now := 1700000000000 in
  (forall h, exists o0 o1,
     normalizeTasks h now two_untimed_records = Ok [o0; o1] /\
     createdAt o0 = Str (iso_of_time (synthesized_time now 0)) /\
     createdAt o1 = Str (iso_of_time (synthesized_time now 1)) /\
     createdAt o0 = Str "2023-11-13T22:13:20.000Z" /\
     createdAt o1 = Str "2023-11-12T22:13:20.000Z") /\
  ~ synthesized_time now 0 < synthesized_time now 1 /\
  String.ltb "2023-11-13T22:13:20.000Z" "2023-11-12T22:13:20.000Z" = false.
Proof.
  cbv zeta. split; [|split].
  - intros h. eexists. eexists. split; [vm_compute; reflexivity|].
    vm_compute. repeat split.
  - vm_compute. discriminate.
  - vm_compute. reflexivity.
Qed.

(** C3, as the code has it: when normalisation of a list returns, every
    record that lacks [createdAt] is given the rendering of the instant
    [index + 1] days before the normalisation time; these instants strictly
    decrease with the index, so an earlier-indexed record appears to have
    been created later than a later-indexed one, and all of them before the
    normalisation time. *)
Theorem synthesized_createdAt_decreases
    (h : Host) (now : Z) (elems : list Value) (out : list Task)
    (i j : nat) (ti tj : Value) :
  normalizeTasks h now (Array elems) = Ok out ->
  nth_error elems i = Some ti ->
  nth_error elems j = Some tj ->
  lacks_createdAt ti = true ->
  lacks_createdAt tj = true ->
  (i < j)%nat ->
  exists oi oj,
    nth_error out i = Some oi /\
    nth_error out j = Some oj /\
    createdAt oi = Str (iso_of_time (synthesized_time now i)) /\
    createdAt oj = Str (iso_of_time (synthesized_time now j)) /\
    synthesized_time now j < synthesized_time now i /\
    synthesized_time now i < now.
Proof.
  intros Hnorm Hi Hj Hli Hlj Hlt. unfold normalizeTasks in Hnorm.
  destruct (map_indexed_nth _ _ _ _ Hnorm i ti Hi) as [oi [Hoi Hfi]].
  destruct (map_indexed_nth _ _ _ _ Hnorm j tj Hj) as [oj [Hoj Hfj]].
  cbn [Nat.add] in Hfi, Hfj.
  exists oi, oj. repeat split; try assumption.
  - now apply (normalizeTask_synthesizes h now ti i).
  - now apply (normalizeTask_synthesizes h now tj j).
  - now apply synthesized_time_decreasing.
  - now apply (synthesized_time_decreasing now i j).
Qed.

Lemma synthesized_createdAt_decreases_witness :
  normalizeTasks plain_host 1700000000000 two_untimed_records
  = Ok [normalized_title_only 1700000000000 (Str "A");
        normalized_second 1700000000000 (Str "B")] /\
  exists oi oj,
    nth_error [normalized_title_only 1700000000000 (Str "A");
               normalized_second 1700000000000 (Str "B")] 0 = Some oi /\
    nth_error [normalized_title_only 1700000000000 (Str "A");
               normalized_second 1700000000000 (Str "B")] 1 = Some oj /\
    createdAt oi = Str (iso_of_time (synthesized_time 1700000000000 0)) /\
    createdAt oj = Str (iso_of_time (synthesized_time 1700000000000 1)) /\
    synthesized_time 1700000000000 1 < synthesized_time 1700000000000 0 /\
    synthesized_time 1700000000000 0 < 1700000000000.
Proof.
  split; [reflexivity|].
  exact (synthesized_createdAt_decreases plain_host 1700000000000
           [title_only (Str "A"); title_only (Str "B")]
           [normalized_title_only 1700000000000 (Str "A");
            normalized_second 1700000000000 (Str "B")]
           0%nat 1%nat (title_only (Str "A")) (title_only (Str "B"))
           eq_refl eq_refl eq_refl eq_refl eq_refl (le_n 1)).
Defined.

(* ===================================================================== *)
(** ** Defaults of the numeric fields *)
(* ===================================================================== *)

Lemma nan_is_not_zero : Number PrimFloat.nan <> Number 0.
Proof.
  intros H.
  apply (f_equal (fun v => match v with Number x => PrimFloat.is_nan x | _ => false end)) in H.
  vm_compute in H. discriminate H.
Qed.

(** [Number(x) ?? 0] is [Number(x)]: the default is never taken. *)
Lemma nullish_Number (x : float) (b : Value) : nullish (Number x) b = Number x.
Proof. reflexivity. Qed.

(** Whatever the record holds as [revenue], the normalised task holds its
    numeric reading, NaN included. *)
Lemma normalizeTask_revenue (h : Host) (now : Z) (t : Value) (idx : nat) (o : Task) (v : Value) :
  normalizeTask h now t idx = Ok o ->
  get t "revenue" = Ok v ->
  revenue o = Number (ToNumber h v).
Proof.
  unfold normalizeTask. intros Hnorm Hrev.
  do 11 invert_bind Hnorm. injection Hnorm as <-. cbn [revenue nullish].
  congruence.
Qed.

(** C2, evaluated on the code: a record carrying only a title is
    normalised to a task with [timeTaken] 0, a synthesised [createdAt] and no
    [completedAt], but its [revenue] is NaN and not 0: [Number(undefined)] is
    NaN, which [?? 0] lets through. *)
Theorem title_only_revenue_is_NaN (h : Host) (now : Z) (ttl : Value) :
  Z.abs (now - 86400000) <= maxTime ->
  normalizeTasks h now (Array [title_only ttl]) = Ok [normalized_title_only now ttl] /\
  revenue (normalized_title_only now ttl) = Number PrimFloat.nan /\
  revenue (normalized_title_only now ttl) <> Number 0 /\
  timeTaken (normalized_title_only now ttl) = Number 0 /\
  createdAt (normalized_title_only now ttl) = Str (iso_of_time (synthesized_time now 0)) /\
  completedAt (normalized_title_only now ttl) = Undefined.
Proof.
  intros Hrange. repeat split; [|apply nan_is_not_zero].
  unfold normalizeTasks, title_only. cbn [map_indexed]. unfold normalizeTask.
  cbn [get lookup String.eqb Ascii.eqb Bool.eqb bind truthy strict_eq_string].
  change (now - (Z.of_nat 0 + 1) * 24 * 3600 * 1000) with (now - 86400000).
  unfold Date_of_number, TimeClip.
  apply Z.leb_le in Hrange. rewrite Hrange.
  reflexivity.
Qed.

Lemma title_only_revenue_is_NaN_witness :
  Z.abs (1700000000000 - 86400000) <= maxTime /\
  normalizeTasks plain_host 1700000000000 (Array [title_only (Str "X")])
  = Ok [normalized_title_only 1700000000000 (Str "X")] /\
  revenue (normalized_title_only 1700000000000 (Str "X")) <> Number 0.
Proof.
  assert (Hrange : Z.abs (1700000000000 - 86400000) <= maxTime)
    by (vm_compute; discriminate).
  split; [exact Hrange|].
  pose proof (title_only_revenue_is_NaN plain_host 1700000000000 (Str "X") Hrange) as H.
  split; [exact (proj1 H) | exact (proj1 (proj2 (proj2 H)))].
Defined.

(** C9: for every input value that is not an array, normalisation returns
    the empty task list; nothing is thrown. *)
Theorem normalizeTasks_non_array (h : Host) (now : Z) (input : Value) :
  isArray input = false ->
  normalizeTasks h now input = Ok [].
Proof.
  intros Hnot. destruct input; try reflexivity. discriminate Hnot.
Qed.

Lemma normalizeTasks_non_array_witness :
  isArray (title_only (Str "X")) = false /\
  normalizeTasks plain_host 1700000000000 (title_only (Str "X")) = Ok [].
Proof.
  split; [reflexivity|].
  exact (normalizeTasks_non_array plain_host 1700000000000 (title_only (Str "X")) eq_refl).
Defined.

(** Normalisation is not total on arrays: a null element makes the first
    property read throw. *)
Lemma normalizeTasks_null_element (h : Host) (now : Z) :
  normalizeTasks h now (Array [Null]) = Throw TypeError.
Proof. reflexivity. Qed.

End LoadFacts.

(* ===================================================================== *)
(** ** Laws of the mutation entry points *)
(* ===================================================================== *)

Module StoreLaws.
Import Store.

Lemma filter_removes_id (id0 : string) (l : list Task) :
  ~ In id0 (map id (filter (fun t => negb (String.eqb (id t) id0)) l)).
Proof.
  intros Hin. apply in_map_iff in Hin. destruct Hin as [t [Hid Hin]].
  apply filter_In in Hin. destruct Hin as [_ Hne].
  rewrite Hid, String.eqb_refl in Hne. discriminate Hne.
Qed.

(** [find] by identifier returns the first task with that identifier. *)
Lemma find_first_match (id0 : string) (l : list Task) :
  In id0 (map id l) ->
  exists t before after,
    find (fun u => String.eqb (id u) id0) l = Some t /\
    id t = id0 /\
    l = (before ++ t :: after)%list /\
    ~ In id0 (map id before).
Proof.
  induction l as [|a l IH]; cbn [map In find]; intros Hin; [contradiction|].
  destruct (String.eqb (id a) id0) eqn:Ha.
  - exists a, [], l. apply String.eqb_eq in Ha. repeat split; auto.
  - destruct Hin as [Hin | Hin]; [apply String.eqb_neq in Ha; contradiction|].
    destruct (IH Hin) as [t [before [after [Hfind [Hid [Hl Hnot]]]]]].
    exists t, (a :: before), after. repeat split; auto.
    + now rewrite Hl.
    + cbn [map In]. intros [H | H]; [|contradiction].
      apply String.eqb_neq in Ha. contradiction.
Qed.

(** With unique identifiers, removing the tasks with the identifier of [t]
    removes [t] alone. *)
Lemma filter_unique_id_perm (t : Task) (l : list Task) :
  NoDup (map id l) -> In t l ->
  Permutation (t :: filter (fun u => negb (String.eqb (id u) (id t))) l) l.
Proof.
  induction l as [|a l IH]; cbn [map In filter]; intros Hnd Hin; [contradiction|].
  inversion Hnd as [|? ? Hhead Htail]; subst.
  destruct Hin as [-> | Hin].
  - rewrite String.eqb_refl. cbn [negb].
    rewrite (StoreFacts.filter_unknown_id (id t) l Hhead). apply Permutation_refl.
  - destruct (String.eqb (id a) (id t)) eqn:Ha; cbn [negb].
    + apply String.eqb_eq in Ha. exfalso. apply Hhead. rewrite Ha. now apply in_map.
    + apply (perm_trans (perm_swap a t _)). apply perm_skip. now apply IH.
Qed.

(** X1: after [deleteTask id0] no task of the collection has id [id0] any
    more, duplicates included, and the tasks with another id are exactly
    those that were there. *)
Theorem deleteTask_removes_every_match (id0 : string) (s : State) :
  ~ In id0 (map id (tasks (deleteTask id0 s))) /\
  forall t, id t <> id0 ->
            (In t (tasks (deleteTask id0 s)) <-> In t (tasks s)).
Proof.
  split; [apply filter_removes_id|].
  intros t Hne. unfold deleteTask. cbn [tasks]. rewrite filter_In.
  apply String.eqb_neq in Hne. rewrite Hne. cbn [negb]. tauto.
Qed.

(** X2: when some task has id [id0], [deleteTask id0] remembers in
    [lastDeleted] the first task of the collection with that id, and only
    that one. *)
Theorem deleteTask_remembers_first_match (id0 : string) (s : State) :
  In id0 (map id (tasks s)) ->
  exists t before after,
    lastDeleted (deleteTask id0 s) = Some t /\
    id t = id0 /\
    tasks s = (before ++ t :: after)%list /\
    ~ In id0 (map id before).
Proof.
  intros Hin. unfold deleteTask. cbn [lastDeleted]. now apply find_first_match.
Qed.

Lemma deleteTask_remembers_first_match_witness :
  In "a" (map id [task_b; task_a; task_a_again]) /\
  lastDeleted (deleteTask "a" {| tasks := [task_b; task_a; task_a_again];
                                 lastDeleted := None |}) = Some task_a /\
  exists t before after,
    lastDeleted (deleteTask "a" {| tasks := [task_b; task_a; task_a_again];
                                   lastDeleted := None |}) = Some t /\
    id t = "a" /\
    [task_b; task_a; task_a_again] = (before ++ t :: after)%list /\
    ~ In "a" (map id before).
Proof.
  assert (Hin : In "a" (map id [task_b; task_a; task_a_again]))
    by (right; left; reflexivity).
  split; [exact Hin|]. split; [reflexivity|].
  exact (deleteTask_remembers_first_match "a"
           {| tasks := [task_b; task_a; task_a_again]; lastDeleted := None |} Hin).
Defined.

(** X3: deleting the same id twice in a row ends with the collection of the
    first delete and an empty undo slot: the second call finds nothing and
    overwrites [lastDeleted] with null, so that [undoDelete] called by a
    render that has the two deletes committed restores nothing. *)
Theorem deleteTask_twice_loses_undo (id0 : string) (s : State) :
  let deleted := deleteTask id0 (deleteTask id0 s) in
  deleted = clearHistory (deleteTask id0 s) /\
  lastDeleted deleted = None /\
  undoDelete (lastDeleted deleted) deleted = deleted.
Proof.
  cbv zeta.
  assert (Hgone := filter_removes_id id0 (tasks s)).
  assert (Heq : deleteTask id0 (deleteTask id0 s) = clearHistory (deleteTask id0 s)).
  { unfold deleteTask at 1. unfold clearHistory.
    unfold deleteTask at 3. cbn [tasks] in *.
    unfold deleteTask at 1 2. cbn [tasks].
    now rewrite (StoreFacts.filter_unknown_id id0 _ Hgone),
                (StoreFacts.find_unknown_id id0 _ Hgone). }
  split; [exact Heq|]. rewrite Heq. split; reflexivity.
Qed.

(** X4: in a collection with unique ids, deleting a task and then calling
    [undoDelete] from a render that has the deletion committed puts it back
    at the front: the collection holds the same tasks as before, in the old
    order except for the restored one, and the undo slot is empty. *)
Theorem delete_undo_restores (t : Task) (s : State) :
  NoDup (map id (tasks s)) -> In t (tasks s) ->
  let deleted := deleteTask (id t) s in
  let s' := undoDelete (lastDeleted deleted) deleted in
  lastDeleted deleted = Some t /\
  tasks s' = t :: filter (fun u => negb (String.eqb (id u) (id t))) (tasks s) /\
  Permutation (tasks s') (tasks s) /\
  lastDeleted s' = None.
Proof.
  intros Hnd Hin. cbv zeta. unfold undoDelete, deleteTask. cbn [tasks lastDeleted].
  rewrite (StoreFacts.find_unique_id t _ Hnd Hin). cbn [tasks lastDeleted].
  repeat split. now apply filter_unique_id_perm.
Qed.

Lemma delete_undo_restores_witness :
  NoDup (map id [task_a; task_b]) /\
  tasks (undoDelete
           (lastDeleted (deleteTask "b" {| tasks := [task_a; task_b]; lastDeleted := None |}))
           (deleteTask "b" {| tasks := [task_a; task_b]; lastDeleted := None |}))
  = [task_b; task_a] /\
  Permutation
    (tasks (undoDelete
              (lastDeleted (deleteTask "b" {| tasks := [task_a; task_b];
                                              lastDeleted := None |}))
              (deleteTask "b" {| tasks := [task_a; task_b]; lastDeleted := None |})))
    [task_a; task_b].
Proof.
  assert (Hnd : NoDup (map id [task_a; task_b])).
  { simpl. repeat constructor; simpl; intuition discriminate. }
  split; [exact Hnd|].
  pose proof (delete_undo_restores task_b
                {| tasks := [task_a; task_b]; lastDeleted := None |}
                Hnd (or_intror (or_introl eq_refl))) as H.
  split; [exact (proj1 (proj2 H)) | exact (proj1 (proj2 (proj2 H)))].
Defined.

(** X5: when ids are duplicated, a delete followed by [undoDelete] from a
    render that has the deletion committed gives back one task only: the
    collection ends with as many tasks as before, less the tasks with that
    id, plus one. *)
Theorem delete_undo_drops_duplicates (id0 : string) (s : State) :
  In id0 (map id (tasks s)) ->
  let deleted := deleteTask id0 s in
  (List.length (tasks (undoDelete (lastDeleted deleted) deleted))
   + List.length (filter (fun t => String.eqb (id t) id0) (tasks s))
   = S (List.length (tasks s)))%nat.
Proof.
  intros Hin.
  destruct (find_first_match id0 (tasks s) Hin) as [t [before [after [Hfind _]]]].
  cbv zeta. unfold undoDelete, deleteTask. cbn [tasks lastDeleted]. rewrite Hfind.
  cbn [tasks List.length].
  rewrite <- (filter_length (fun t => String.eqb (id t) id0) (tasks s)). lia.
Qed.

Lemma delete_undo_drops_duplicates_witness :
  In "a" (map id [task_b; task_a; task_a_again]) /\
  tasks (undoDelete
           (lastDeleted (deleteTask "a" {| tasks := [task_b; task_a; task_a_again];
                                           lastDeleted := None |}))
           (deleteTask "a" {| tasks := [task_b; task_a; task_a_again];
                              lastDeleted := None |})) = [task_a; task_b] /\
  (List.length (tasks (undoDelete
                  (lastDeleted (deleteTask "a" {| tasks := [task_b; task_a; task_a_again];
                                                  lastDeleted := None |}))
                  (deleteTask "a" {| tasks := [task_b; task_a; task_a_again];
                                     lastDeleted := None |})))
   + List.length (filter (fun t => String.eqb (id t) "a") [task_b; task_a; task_a_again])
   = 4)%nat.
Proof.
  assert (Hin : In "a" (map id [task_b; task_a; task_a_again]))
    by (right; left; reflexivity).
  split; [exact Hin|]. split; [reflexivity|].
  exact (delete_undo_drops_duplicates "a"
           {| tasks := [task_b; task_a; task_a_again]; lastDeleted := None |} Hin).
Defined.

(** X6: [undoDelete] called by a render that has the state committed
    neither loses nor duplicates a task: the store holds the same tasks after
    it as before and its undo slot is empty; called again by the next render
    it changes nothing, but called a second time by the same render, whose
    closure still holds the task, it puts the task in front once more. *)
Theorem undoDelete_moves_one_task (s : State) :
  let s' := undoDelete (lastDeleted s) s in
  Permutation (held s') (held s) /\
  lastDeleted s' = None /\
  undoDelete (lastDeleted s') s' = s' /\
  forall t, lastDeleted s = Some t ->
            tasks (undoDelete (lastDeleted s) s') = t :: t :: tasks s.
Proof.
  cbv zeta. unfold undoDelete. destruct (lastDeleted s) as [t|] eqn:Hpending.
  - unfold held. rewrite Hpending. cbn [tasks lastDeleted]. rewrite app_nil_r.
    split; [apply Permutation_cons_append|]. split; [reflexivity|].
    split; [reflexivity|]. intros u Hu. now injection Hu as <-.
  - rewrite Hpending. split; [apply Permutation_refl|]. split; [reflexivity|].
    split; [reflexivity|]. intros u Hu. discriminate Hu.
Qed.

Lemma merge_empty_patch (t : Task) : merge t empty_patch = t.
Proof. now destruct t. Qed.

Lemma id_updateOne (now : Z) (id0 : string) (patch : Patch) (t : Task) :
  p_id patch = None -> id (updateOne now id0 patch t) = id t.
Proof.
  intros Hkey. unfold updateOne.
  destruct (String.eqb (id t) id0); cbn [negb]; [|reflexivity].
  match goal with |- context [if ?c then _ else _] => destruct c end;
    cbn [id set_completedAt merge]; now rewrite Hkey.
Qed.

Lemma map_id_updateOne (now : Z) (id0 : string) (patch : Patch) (l : list Task) :
  p_id patch = None -> map id (map (updateOne now id0 patch) l) = map id l.
Proof.
  intros Hkey. rewrite map_map. apply map_ext. intros t. now apply id_updateOne.
Qed.

(** X7: [updateTask] never adds or removes a task, whatever the patch, and
    never touches the undo slot; with a patch that has no [id] key the ids of
    the collection stay the same, position by position. *)
Theorem updateTask_keeps_ids (now : Z) (id0 : string) (patch : Patch) (s : State) :
  List.length (tasks (updateTask now id0 patch s)) = List.length (tasks s) /\
  lastDeleted (updateTask now id0 patch s) = lastDeleted s /\
  (p_id patch = None ->
   map id (tasks (updateTask now id0 patch s)) = map id (tasks s)).
Proof.
  unfold updateTask. cbn [tasks lastDeleted]. split; [apply length_map|].
  split; [reflexivity|]. intros Hkey. now apply map_id_updateOne.
Qed.

(** X8: an update with the empty patch changes nothing, whether or not the
    id matches a task and whatever the status of the task: no completion
    stamp is written without a move into 'Done'. *)
Theorem updateTask_empty_patch (now : Z) (id0 : string) (s : State) :
  updateTask now id0 empty_patch s = s.
Proof.
  unfold updateTask. destruct s as [l pending]. cbn [tasks lastDeleted]. f_equal.
  rewrite <- (map_id l) at 2. apply map_ext. intros t. unfold updateOne.
  destruct (String.eqb (id t) id0); cbn [negb]; [|reflexivity].
  rewrite merge_empty_patch.
  destruct (String.eqb (status t) "Done"); reflexivity.
Qed.

(** X9: [updateTask] leaves every task with another id exactly as it was,
    at the position it had. *)
Theorem updateTask_leaves_other_tasks
    (now : Z) (id0 : string) (patch : Patch) (s : State) (i : nat) (t : Task) :
  nth_error (tasks s) i = Some t ->
  id t <> id0 ->
  nth_error (tasks (updateTask now id0 patch s)) i = Some t.
Proof.
  intros Hnth Hne. unfold updateTask. cbn [tasks].
  rewrite (map_nth_error _ _ _ Hnth). f_equal.
  unfold updateOne. apply String.eqb_neq in Hne. now rewrite Hne.
Qed.

Lemma updateTask_leaves_other_tasks_witness :
  nth_error [task_a; task_b] 1 = Some task_b /\ id task_b <> "a" /\
  nth_error (tasks (updateTask 1700000000000 "a" (completedAt_patch None)
                      {| tasks := [task_a; task_b]; lastDeleted := None |})) 1
  = Some task_b.
Proof.
  assert (Hne : id task_b <> "a") by discriminate.
  split; [reflexivity|]. split; [exact Hne|].
  exact (updateTask_leaves_other_tasks 1700000000000 "a" (completedAt_patch None)
           {| tasks := [task_a; task_b]; lastDeleted := None |} 1%nat task_b eq_refl Hne).
Defined.

(** X10: on a task with the given id, the only field [updateTask] writes on
    its own is [completedAt]: every other field of the result is the patch's
    value when the patch has the key and the old value otherwise, [id] and
    [createdAt] included, and [completedAt] is that of the merge or the
    stamp of the current time. *)
Theorem updateOne_is_merge_but_completedAt
    (now : Z) (id0 : string) (patch : Patch) (t : Task) :
  id t = id0 ->
  set_completedAt (updateOne now id0 patch t) (completedAt (merge t patch)) = merge t patch /\
  id (updateOne now id0 patch t) = nullish (p_id patch) (id t) /\
  status (updateOne now id0 patch t) = nullish (p_status patch) (status t) /\
  createdAt (updateOne now id0 patch t) = nullish (p_createdAt patch) (createdAt t) /\
  (completedAt (updateOne now id0 patch t) = nullish (p_completedAt patch) (completedAt t) \/
   completedAt (updateOne now id0 patch t) = Some (JS.iso_of_time now)).
Proof.
  intros Hid. subst id0. unfold updateOne. rewrite String.eqb_refl. cbn [negb].
  match goal with |- context [if ?c then _ else _] => destruct c end.
  - do 4 (split; [reflexivity|]). now right.
  - do 4 (split; [reflexivity|]). now left.
Qed.

Lemma updateOne_is_merge_but_completedAt_witness :
  id task_a = "a" /\
  createdAt (updateOne 1700000000000 "a"
               {| p_id := Some "z"; p_title := None; p_revenue := None;
                  p_timeTaken := None; p_priority := None; p_status := Some "Done";
                  p_notes := None; p_createdAt := Some "2030-01-01T00:00:00.000Z";
                  p_completedAt := None |} task_a)
  = "2030-01-01T00:00:00.000Z" /\
  id (updateOne 1700000000000 "a"
        {| p_id := Some "z"; p_title := None; p_revenue := None;
           p_timeTaken := None; p_priority := None; p_status := Some "Done";
           p_notes := None; p_createdAt := Some "2030-01-01T00:00:00.000Z";
           p_completedAt := None |} task_a) = "z".
Proof.
  split; [reflexivity|].
  pose proof (updateOne_is_merge_but_completedAt 1700000000000 "a"
                {| p_id := Some "z"; p_title := None; p_revenue := None;
                   p_timeTaken := None; p_priority := None; p_status := Some "Done";
                   p_notes := None; p_createdAt := Some "2030-01-01T00:00:00.000Z";
                   p_completedAt := None |} task_a eq_refl) as H.
  split; [exact (proj1 (proj2 (proj2 (proj2 H)))) | exact (proj1 (proj2 H))].
Defined.

(* ===================================================================== *)
(** *** Unique identifiers *)
(* ===================================================================== *)

Lemma NoDup_ids_tasks (s : State) :
  NoDup (map id (held s)) -> NoDup (map id (tasks s)).
Proof.
  unfold held. rewrite map_app. apply NoDup_app_remove_r.
Qed.

Lemma NoDup_ids_snoc (t : Task) (l : list Task) :
  NoDup (map id l) -> ~ In (id t) (map id l) -> NoDup (map id (l ++ [t])).
Proof.
  intros Hnd Hnot.
  apply (Permutation_NoDup (l := map id (t :: l))).
  - apply Permutation_map, Permutation_cons_append.
  - cbn [map]. now constructor.
Qed.

Lemma step_keeps_ids_unique (s : State) (op : Op) :
  NoDup (map id (held s)) ->
  keeps_ids_apart s op ->
  NoDup (map id (held (step s op))).
Proof.
  intros Hnd Hop. destruct op as [e task | now id0 patch | id0 | | ]; cbn [step].
  - unfold held, addTask. cbn [tasks lastDeleted map app]. now constructor.
  - cbn in Hop. unfold held, updateTask in *. cbn [tasks lastDeleted].
    rewrite map_app in *. now rewrite map_id_updateOne.
  - apply NoDup_ids_tasks in Hnd. unfold held, deleteTask. cbn [tasks lastDeleted].
    destruct (find _ (tasks s)) as [t|] eqn:Hfind.
    + apply find_some in Hfind. destruct Hfind as [_ Hid]. apply String.eqb_eq in Hid.
      apply NoDup_ids_snoc.
      * now apply StoreFacts.filter_keeps_NoDup_id.
      * rewrite Hid. apply filter_removes_id.
    + rewrite app_nil_r. now apply StoreFacts.filter_keeps_NoDup_id.
  - unfold undoDelete. destruct (lastDeleted s) as [t|] eqn:Hpending; [|assumption].
    unfold held in *. rewrite Hpending in Hnd. cbn [tasks lastDeleted].
    rewrite app_nil_r.
    apply (Permutation_NoDup (l := map id (tasks s ++ [t]))); [|assumption].
    apply Permutation_map, Permutation_sym, Permutation_cons_append.
  - apply NoDup_ids_tasks in Hnd. unfold held, clearHistory. cbn [tasks lastDeleted].
    now rewrite app_nil_r.
Qed.

(** X11: a store whose tasks, pending undo included, have pairwise
    distinct ids keeps that property through every sequence of calls, made
    one per render, in which each [addTask] brings an id new to the store and
    no patch carries an [id] key; deletes, undos and history clears made that
    way never break it. *)
Theorem run_keeps_ids_unique (ops : list Op) :
  forall s,
    NoDup (map id (held s)) ->
    keeps_ids_apart_along s ops ->
    NoDup (map id (held (run s ops))).
Proof.
  unfold run. induction ops as [|op ops IH]; intros s Hnd Hops; cbn [fold_left].
  - exact Hnd.
  - destruct Hops as [Hop Hrest]. apply IH; [|exact Hrest].
    now apply step_keeps_ids_unique.
Qed.

Lemma run_keeps_ids_unique_witness :
  NoDup (map id (held {| tasks := [task_a; task_b]; lastDeleted := None |})) /\
  keeps_ids_apart_along {| tasks := [task_a; task_b]; lastDeleted := None |}
    [OpDelete "a"; OpAdd env_1 done_payload;
     OpUpdate 1700000000000 "b" (status_patch "Todo"); OpUndo] /\
  NoDup (map id (held (run {| tasks := [task_a; task_b]; lastDeleted := None |}
                         [OpDelete "a"; OpAdd env_1 done_payload;
                          OpUpdate 1700000000000 "b" (status_patch "Todo"); OpUndo]))).
Proof.
  assert (Hnd : NoDup (map id (held {| tasks := [task_a; task_b]; lastDeleted := None |}))).
  { simpl. repeat constructor; simpl; intuition discriminate. }
  assert (Hops : keeps_ids_apart_along {| tasks := [task_a; task_b]; lastDeleted := None |}
                   [OpDelete "a"; OpAdd env_1 done_payload;
                    OpUpdate 1700000000000 "b" (status_patch "Todo"); OpUndo]).
  { simpl. repeat split. intuition discriminate. }
  split; [exact Hnd|]. split; [exact Hops|].
  exact (run_keeps_ids_unique _ _ Hnd Hops).
Defined.

(** Two calls of [undoDelete] by one render do break it: both re-insert
    the task of the closure. *)
Lemma undoDelete_twice_by_one_render :
  let s := {| tasks := [task_a]; lastDeleted := Some task_b |} in
  map id (tasks (undoDelete (lastDeleted s) (undoDelete (lastDeleted s) s)))
  = ["b"; "b"; "a"].
Proof. reflexivity. Qed.

(** A caller-supplied id that the store already holds breaks uniqueness:
    [addTask] takes it as it is. *)
Lemma addTask_takes_duplicate_id :
  map id (tasks (addTask env_1 done_payload
                   (addTask env_1 done_payload empty_state))) = ["t1"; "t1"].
Proof. reflexivity. Qed.

(* ===================================================================== *)
(** *** Generated identifiers *)
(* ===================================================================== *)

Lemma digits_have_no_dash (d : Decimal.uint) :
  has_dash (NilEmpty.string_of_uint d) = false.
Proof. induction d; cbn [NilEmpty.string_of_uint has_dash]; try rewrite IHd; reflexivity. Qed.

Lemma string_of_Z_no_dash (z : Z) : 0 <= z -> has_dash (JS.string_of_Z z) = false.
Proof.
  intros Hz. unfold JS.string_of_Z. destruct z as [|p|p]; [reflexivity| |lia].
  cbn [Z.to_int NilZero.string_of_int]. unfold NilZero.string_of_uint.
  destruct (Pos.to_uint p) eqn:Hp; try reflexivity; rewrite <- Hp;
    apply digits_have_no_dash.
Qed.

Lemma string_of_Z_inj (z z' : Z) : JS.string_of_Z z = JS.string_of_Z z' -> z = z'.
Proof.
  unfold JS.string_of_Z. intros Heq.
  assert (Hround : forall n, NilZero.int_of_string (NilZero.string_of_int (Z.to_int n))
                             = Some (Z.to_int n)).
  { intros n. apply NilZero.isi; destruct n as [|p|p]; cbn [Z.to_int]; try discriminate;
      intros H; injection H as H; now apply (DecimalPos.Unsigned.to_uint_nonnil p). }
  assert (Hint : Some (Z.to_int z) = Some (Z.to_int z')).
  { rewrite <- (Hround z), <- (Hround z'). now rewrite Heq. }
  injection Hint as Hint.
  rewrite <- (DecimalZ.of_to z), <- (DecimalZ.of_to z'). now rewrite Hint.
Qed.

(** The first ['-'] splits a text whose head has none in one way only. *)
Lemma split_at_dash (a b a' b' : string) :
  has_dash a = false -> has_dash a' = false ->
  (a ++ "-" ++ b = a' ++ "-" ++ b')%string ->
  a = a' /\ b = b'.
Proof.
  revert a'. induction a as [|c a IH]; intros [|c' a'] Ha Ha' Heq;
    cbn [String.append has_dash] in *.
  - injection Heq as Heq. now split.
  - injection Heq as Hc _. subst c'. discriminate Ha'.
  - injection Heq as Hc _. subst c. discriminate Ha.
  - injection Heq as Hc Heq. subst c'.
    apply orb_false_iff in Ha, Ha'.
    destruct (IH a' (proj2 Ha) (proj2 Ha') Heq) as [-> ->]. now split.
Qed.

(** X12: two calls of [generateId] (with clock readings that are not
    negative) return the same id only if they read the same millisecond and
    drew the same random component. *)
Theorem generateId_collides_only_on_equal_draws (e e' : Env) :
  0 <= date_now e -> 0 <= date_now e' ->
  generateId e = generateId e' ->
  date_now e = date_now e' /\ random e = random e'.
Proof.
  intros Hnow Hnow' Heq. unfold generateId in Heq.
  cbn [String.append] in Heq. injection Heq as Heq.
  destruct (split_at_dash _ _ _ _ (string_of_Z_no_dash _ Hnow)
              (string_of_Z_no_dash _ Hnow') Heq) as [Hd Hr].
  split; now apply string_of_Z_inj.
Qed.

Lemma generateId_collides_only_on_equal_draws_witness :
  0 <= date_now env_1 /\
  generateId env_1 = generateId {| date_now := 1700000000000; random := 4711;
                                   new_date := 1700000000999 |} /\
  date_now env_1 = 1700000000000 /\ random env_1 = 4711.
Proof.
  assert (Hnow : 0 <= 1700000000000) by (vm_compute; discriminate).
  split; [exact Hnow|]. split; [reflexivity|].
  exact (generateId_collides_only_on_equal_draws env_1
           {| date_now := 1700000000000; random := 4711; new_date := 1700000000999 |}
           Hnow Hnow eq_refl).
Defined.

End StoreLaws.

(* ===================================================================== *)
(** ** Laws of the normalisation *)
(* ===================================================================== *)

Module LoadLaws.
Import JS Load.

Lemma get_field (t : Value) (key : string) (v : Value) :
  get t key = Ok v -> unreadable t = false /\ v = field t key.
Proof. destruct t; cbn [get]; intros H; try discriminate H; injection H as <-; now split. Qed.

Lemma get_readable (t : Value) (key : string) :
  unreadable t = false -> get t key = Ok (field t key).
Proof. destruct t; cbn [get unreadable]; intros H; try discriminate H; reflexivity. Qed.

(** The shape of every task the callback returns. *)
Lemma normalizeTask_Ok (h : Host) (now : Z) (t : Value) (idx : nat) (o : Task) :
  normalizeTask h now t idx = Ok o ->
  unreadable t = false /\
  exists tv completed,
    created_date h now t idx = Some tv /\
    (if truthy (field t "completedAt") then Ok (field t "completedAt")
     else if strict_eq_string (field t "status") "Done"
          then iso <- toISOString (Date_of_number (Some (tv + 24 * 3600 * 1000))) ;;
               Ok (Str iso)
          else Ok Undefined) = Ok completed /\
    o = {| id := field t "id";
           title := field t "title";
           revenue := Number (ToNumber h (field t "revenue"));
           timeTaken := if PrimFloat.leb 0 (ToNumber h (field t "timeTaken"))
                        then Number (ToNumber h (field t "timeTaken")) else Number 0;
           priority := field t "priority";
           status := field t "status";
           notes := field t "notes";
           createdAt := Str (iso_of_time tv);
           completedAt := completed |}.
Proof.
  intros Hnorm.
  assert (Hread : unreadable t = false).
  { destruct t; try reflexivity; discriminate Hnorm. }
  split; [exact Hread|].
  unfold normalizeTask in Hnorm.
  rewrite !(get_readable t _ Hread) in Hnorm. cbn [bind] in Hnorm.
  fold (synthesized_time now idx) in Hnorm. fold (created_date h now t idx) in Hnorm.
  destruct (created_date h now t idx) as [tv|] eqn:Hcreated.
  - exists tv. cbn [getTime plus] in Hnorm.
    destruct (if truthy (field t "completedAt") then _ else _) as [completed|] eqn:Hc;
      [|discriminate Hnorm].
    cbn [bind toISOString] in Hnorm. injection Hnorm as <-.
    exists completed. repeat split.
  - exfalso. cbn [getTime plus Date_of_number] in Hnorm.
    destruct (if truthy (field t "completedAt") then _ else _); discriminate Hnorm.
Qed.

Lemma map_indexed_length {A B} (f : A -> nat -> result B) (items : list A) :
  forall idx out, map_indexed f idx items = Ok out ->
  List.length out = List.length items.
Proof.
  induction items as [|a items IH]; intros idx out Hmap; cbn [map_indexed] in Hmap.
  - now injection Hmap as <-.
  - destruct (f a idx) as [y|]; [|discriminate Hmap]. cbn [bind] in Hmap.
    destruct (map_indexed f (S idx) items) as [ys|] eqn:Hys; [|discriminate Hmap].
    cbn [bind] in Hmap. injection Hmap as <-. cbn [List.length]. f_equal.
    now apply (IH (S idx)).
Qed.

(** Every task of the result comes from the record at the same index. *)
Lemma map_indexed_from {A B} (f : A -> nat -> result B) (items : list A) :
  forall idx out, map_indexed f idx items = Ok out ->
  forall i o, nth_error out i = Some o ->
  exists t, nth_error items i = Some t /\ f t (idx + i)%nat = Ok o.
Proof.
  induction items as [|a items IH]; intros idx out Hmap i o Hnth; cbn [map_indexed] in Hmap.
  - injection Hmap as <-. destruct i; discriminate Hnth.
  - destruct (f a idx) as [y|] eqn:Hy; [|discriminate Hmap]. cbn [bind] in Hmap.
    destruct (map_indexed f (S idx) items) as [ys|] eqn:Hys; [|discriminate Hmap].
    cbn [bind] in Hmap. injection Hmap as <-.
    destruct i as [|i]; cbn [nth_error] in *.
    + injection Hnth as <-. exists a. now rewrite Nat.add_0_r.
    + destruct (IH (S idx) ys Hys i o Hnth) as [t [Ht Hf]].
      exists t. split; [exact Ht|]. now rewrite Nat.add_succ_r.
Qed.

Lemma map_indexed_throws {A B} (f : A -> nat -> result B) (items : list A) :
  forall idx i t e,
    nth_error items i = Some t -> f t (idx + i)%nat = Throw e ->
    exists e', map_indexed f idx items = Throw e'.
Proof.
  intros idx i t e Hnth Hf.
  destruct (map_indexed f idx items) as [out|e'] eqn:Hmap; [|now exists e'].
  destruct (LoadFacts.map_indexed_nth f items idx out Hmap i t Hnth) as [o [_ Ho]].
  rewrite Hf in Ho. discriminate Ho.
Qed.

Lemma normalizeTasks_from (h : Host) (now : Z) (input : Value) (out : list Task)
    (i : nat) (o : Task) :
  normalizeTasks h now input = Ok out ->
  nth_error out i = Some o ->
  exists elems t, input = Array elems /\ nth_error elems i = Some t /\
                  normalizeTask h now t i = Ok o.
Proof.
  unfold normalizeTasks. intros Hnorm Hnth.
  destruct input as [| | | | | elems |];
    try (cbn [map_indexed] in Hnorm; injection Hnorm as <-; destruct i; discriminate Hnth).
  destruct (map_indexed_from _ _ _ _ Hnorm i o Hnth) as [t [Ht Hf]].
  now exists elems, t.
Qed.

(** X13: when normalisation of an array returns, it returns one task per
    record, in the order of the records; [id], [title], [priority], [status]
    and [notes] are what the record held, undefined when it held none (no id
    is generated at load). *)
Theorem normalizeTasks_one_task_per_record
    (h : Host) (now : Z) (elems : list Value) (out : list Task) :
  normalizeTasks h now (Array elems) = Ok out ->
  List.length out = List.length elems /\
  forall i o, nth_error out i = Some o ->
              exists t, nth_error elems i = Some t /\
                        id o = field t "id" /\
                        title o = field t "title" /\
                        priority o = field t "priority" /\
                        status o = field t "status" /\
                        notes o = field t "notes".
Proof.
  intros Hnorm. split.
  - unfold normalizeTasks in Hnorm. now apply map_indexed_length in Hnorm.
  - intros i o Hnth.
    destruct (normalizeTasks_from h now _ out i o Hnorm Hnth) as [elems' [t [Heq [Ht Hf]]]].
    injection Heq as <-. exists t. split; [exact Ht|].
    apply normalizeTask_Ok in Hf. destruct Hf as [_ [tv [completed [_ [_ ->]]]]].
    repeat split.
Qed.

Lemma normalizeTasks_one_task_per_record_witness :
  normalizeTasks plain_host 1700000000000 two_untimed_records
  = Ok [normalized_title_only 1700000000000 (Str "A");
        normalized_second 1700000000000 (Str "B")] /\
  List.length [normalized_title_only 1700000000000 (Str "A");
               normalized_second 1700000000000 (Str "B")] = 2%nat.
Proof.
  split; [reflexivity|].
  exact (proj1 (normalizeTasks_one_task_per_record plain_host 1700000000000
                  [title_only (Str "A"); title_only (Str "B")]
                  [normalized_title_only 1700000000000 (Str "A");
                   normalized_second 1700000000000 (Str "B")] eq_refl)).
Defined.

(** X14: the [timeTaken] of every normalised task is a number that is at
    least zero, never NaN and never negative, whatever the record held. *)
Theorem normalized_timeTaken_not_negative
    (h : Host) (now : Z) (input : Value) (out : list Task) (i : nat) (o : Task) :
  normalizeTasks h now input = Ok out ->
  nth_error out i = Some o ->
  exists x, timeTaken o = Number x /\ PrimFloat.leb 0 x = true.
Proof.
  intros Hnorm Hnth.
  destruct (normalizeTasks_from h now _ out i o Hnorm Hnth) as [elems [t [_ [_ Hf]]]].
  apply normalizeTask_Ok in Hf. destruct Hf as [_ [tv [completed [_ [_ ->]]]]].
  cbn [timeTaken].
  destruct (PrimFloat.leb 0 (ToNumber h (field t "timeTaken"))) eqn:Hle.
  - now exists (ToNumber h (field t "timeTaken")).
  - now exists 0%float.
Qed.

Lemma normalized_timeTaken_not_negative_witness :
  exists o, normalizeTasks plain_host 1700000000000 (Array [record_done]) = Ok [o] /\
            timeTaken o = Number 0 /\
            exists x, timeTaken o = Number x /\ PrimFloat.leb 0 x = true.
Proof.
  eexists. split; [reflexivity|]. split; [reflexivity|].
  exact (normalized_timeTaken_not_negative plain_host 1700000000000
           (Array [record_done]) _ 0%nat _ eq_refl eq_refl).
Defined.

(** X15: the [revenue] of every normalised task is the numeric reading of
    what the record held, with no default: a number stays, null reads as 0,
    true as 1, and an absent value as NaN. *)
Theorem normalized_revenue_is_numeric_reading
    (h : Host) (now : Z) (elems : list Value) (out : list Task) (i : nat) (o : Task) :
  normalizeTasks h now (Array elems) = Ok out ->
  nth_error out i = Some o ->
  exists t, nth_error elems i = Some t /\
            revenue o = Number (ToNumber h (field t "revenue")) /\
            (forall x, field t "revenue" = Number x -> revenue o = Number x) /\
            (field t "revenue" = Null -> revenue o = Number 0) /\
            (field t "revenue" = Bool true -> revenue o = Number 1) /\
            (field t "revenue" = Undefined -> revenue o = Number PrimFloat.nan).
Proof.
  intros Hnorm Hnth.
  destruct (normalizeTasks_from h now _ out i o Hnorm Hnth) as [elems' [t [Heq [Ht Hf]]]].
  injection Heq as <-. exists t. split; [exact Ht|].
  apply normalizeTask_Ok in Hf. destruct Hf as [_ [tv [completed [_ [_ ->]]]]].
  cbn [revenue]. repeat split; intros; now rewrite H.
Qed.

Lemma normalized_revenue_is_numeric_reading_witness :
  exists o, normalizeTasks plain_host 1700000000000 (Array [record_done]) = Ok [o] /\
            revenue o = Number 0 /\
            exists t, nth_error [record_done] 0 = Some t /\
                      revenue o = Number (ToNumber plain_host (field t "revenue")).
Proof.
  eexists. split; [reflexivity|]. split; [reflexivity|].
  destruct (normalized_revenue_is_numeric_reading plain_host 1700000000000
              [record_done] _ 0%nat _ eq_refl eq_refl) as [t [Ht [Hrev _]]].
  exists t. split; [exact Ht | exact Hrev].
Defined.

(** X16: the [createdAt] of every normalised task is the ISO rendering of
    the record's created date, re-rendered even when the record held a text;
    [completedAt] is the record's own when that is truthy, the rendering of
    the day after the created date when it is not and the status is 'Done',
    and undefined otherwise. *)
Theorem normalized_timestamps
    (h : Host) (now : Z) (elems : list Value) (out : list Task) (i : nat) (o : Task) :
  normalizeTasks h now (Array elems) = Ok out ->
  nth_error out i = Some o ->
  exists t tv,
    nth_error elems i = Some t /\
    created_date h now t i = Some tv /\
    createdAt o = Str (iso_of_time tv) /\
    (truthy (field t "completedAt") = true -> completedAt o = field t "completedAt") /\
    (truthy (field t "completedAt") = false ->
     strict_eq_string (field t "status") "Done" = true ->
     completedAt o = Str (iso_of_time (tv + 86400000))) /\
    (truthy (field t "completedAt") = false ->
     strict_eq_string (field t "status") "Done" = false ->
     completedAt o = Undefined).
Proof.
  intros Hnorm Hnth.
  destruct (normalizeTasks_from h now _ out i o Hnorm Hnth) as [elems' [t [Heq [Ht Hf]]]].
  injection Heq as <-.
  apply normalizeTask_Ok in Hf. destruct Hf as [_ [tv [completed [Hcreated [Hc ->]]]]].
  exists t, tv. cbn [createdAt completedAt].
  split; [exact Ht|]. split; [exact Hcreated|]. split; [reflexivity|].
  destruct (truthy (field t "completedAt")).
  - injection Hc as <-. repeat split; intros; congruence.
  - destruct (strict_eq_string (field t "status") "Done").
    + unfold Date_of_number, TimeClip in Hc.
      change (24 * 3600 * 1000) with 86400000 in Hc.
      destruct (Z.abs (tv + 86400000) <=? maxTime); [|discriminate Hc].
      cbn [toISOString bind] in Hc. injection Hc as <-.
      repeat split; intros; congruence.
    + injection Hc as <-. repeat split; intros; congruence.
Qed.

Lemma normalized_timestamps_witness :
  exists o, normalizeTasks plain_host 1700000000000 (Array [record_done]) = Ok [o] /\
            createdAt o = Str "1970-01-02T00:00:00.000Z" /\
            completedAt o = Str "1970-01-03T00:00:00.000Z" /\
            exists t tv, nth_error [record_done] 0 = Some t /\
                         created_date plain_host 1700000000000 t 0 = Some tv /\
                         createdAt o = Str (iso_of_time tv).
Proof.
  eexists. split; [reflexivity|]. split; [reflexivity|]. split; [reflexivity|].
  destruct (normalized_timestamps plain_host 1700000000000
              [record_done] _ 0%nat _ eq_refl eq_refl) as [t [tv [Ht [Hc [Hiso _]]]]].
  exists t, tv. repeat split; assumption.
Defined.

Lemma normalizeTask_returns_iff (h : Host) (now : Z) (t : Value) (idx : nat) :
  (exists o, normalizeTask h now t idx = Ok o) <-> normalizable h now t idx = true.
Proof.
  unfold normalizable. split.
  - intros [o Ho]. apply normalizeTask_Ok in Ho.
    destruct Ho as [Hread [tv [completed [Hcreated [Hc _]]]]].
    rewrite Hread, Hcreated. cbn [negb andb].
    destruct (truthy (field t "completedAt")); [reflexivity|].
    destruct (strict_eq_string (field t "status") "Done"); [|reflexivity].
    cbn [negb orb]. unfold Date_of_number, TimeClip in Hc.
    destruct (Z.abs (tv + 24 * 3600 * 1000) <=? maxTime); [reflexivity|discriminate Hc].
  - intros Hok. apply andb_true_iff in Hok. destruct Hok as [Hread Hok].
    apply negb_true_iff in Hread.
    destruct (created_date h now t idx) as [tv|] eqn:Hcreated; [|discriminate Hok].
    unfold normalizeTask. rewrite !(get_readable t _ Hread). cbn [bind].
    fold (synthesized_time now idx). fold (created_date h now t idx).
    rewrite Hcreated. cbn [getTime plus].
    destruct (truthy (field t "completedAt")); cbn [bind toISOString]; [now eexists|].
    destruct (strict_eq_string (field t "status") "Done");
      cbn [bind toISOString]; [|now eexists].
    cbn [orb negb] in Hok. unfold Date_of_number, TimeClip. rewrite Hok.
    cbn [bind toISOString]. now eexists.
Qed.

Lemma map_indexed_returns {A B} (f : A -> nat -> result B) (items : list A) :
  forall idx,
    (forall i t, nth_error items i = Some t -> exists o, f t (idx + i)%nat = Ok o) ->
    exists out, map_indexed f idx items = Ok out.
Proof.
  induction items as [|a items IH]; intros idx Hall; cbn [map_indexed].
  - now exists [].
  - destruct (Hall 0%nat a eq_refl) as [y Hy]. rewrite Nat.add_0_r in Hy.
    rewrite Hy. cbn [bind].
    destruct (IH (S idx)) as [ys Hys].
    { intros i t Hnth. destruct (Hall (S i) t Hnth) as [o Ho].
      exists o. now rewrite Nat.add_succ_r in Ho. }
    rewrite Hys. cbn [bind]. now eexists.
Qed.

(** X17: normalisation of an array returns exactly when every record is
    normalisable on its own; one record that is null or undefined, whose
    created date is invalid, or whose day after cannot be rendered makes the
    whole call throw, whatever the other records are. *)
Theorem normalizeTasks_returns_iff (h : Host) (now : Z) (elems : list Value) :
  (exists out, normalizeTasks h now (Array elems) = Ok out) <->
  (forall i t, nth_error elems i = Some t -> normalizable h now t i = true).
Proof.
  unfold normalizeTasks. split.
  - intros [out Hout] i t Hnth.
    destruct (LoadFacts.map_indexed_nth _ _ _ _ Hout i t Hnth) as [o [_ Ho]].
    apply normalizeTask_returns_iff. now exists o.
  - intros Hall. apply map_indexed_returns. intros i t Hnth.
    apply normalizeTask_returns_iff. now apply Hall.
Qed.

(** In particular a record that is not normalisable makes normalisation
    throw wherever it stands in the array. *)
Lemma normalizeTasks_bad_record_throws
    (h : Host) (now : Z) (elems : list Value) (i : nat) (t : Value) :
  nth_error elems i = Some t ->
  normalizable h now t i = false ->
  exists e, normalizeTasks h now (Array elems) = Throw e.
Proof.
  intros Hnth Hbad.
  destruct (normalizeTasks h now (Array elems)) as [out|e] eqn:Hnorm; [|now exists e].
  unfold normalizeTasks in Hnorm.
  destruct (LoadFacts.map_indexed_nth _ _ _ _ Hnorm i t Hnth) as [o [_ Ho]].
  assert (Hok : normalizable h now t i = true)
    by (apply normalizeTask_returns_iff; now exists o).
  rewrite Hok in Hbad. discriminate Hbad.
Qed.

Lemma normalizeTasks_bad_record_throws_example :
  nth_error [title_only (Str "A"); record_far_future; Null] 1 = Some record_far_future /\
  normalizable plain_host 1700000000000 record_far_future 1 = false /\
  normalizable plain_host 1700000000000 Null 2 = false /\
  normalizeTasks plain_host 1700000000000
    (Array [title_only (Str "A"); record_far_future; Null]) = Throw RangeError /\
  exists e, normalizeTasks plain_host 1700000000000
              (Array [title_only (Str "A"); record_far_future; Null]) = Throw e.
Proof.
  split; [reflexivity|]. split; [reflexivity|]. split; [reflexivity|].
  split; [reflexivity|].
  exact (normalizeTasks_bad_record_throws plain_host 1700000000000
           [title_only (Str "A"); record_far_future; Null] 1%nat record_far_future
           eq_refl eq_refl).
Defined.

End LoadLaws.

(* ===================================================================== *)
(** ** Laws of the initial load *)
(* ===================================================================== *)

Module LoaderLaws.
Import JS Load Loader.

Lemma nonempty_length {A} (l : list A) : (0 <? List.length l)%nat = true -> l <> [].
Proof. destruct l; [discriminate | intros _; discriminate]. Qed.

(** X18: a load that settles while the hook is mounted always ends the
    loading state, and (the fallback generator returning tasks) leaves the
    first render's state in one of two shapes: tasks and no error, or an
    error and no tasks. *)
Theorem load_ends_with_tasks_or_error
    (message_of : Error -> string) (h : Host) (now : Z) (seed : list Task) (f : Fetched) :
  seed <> [] ->
  loading (load message_of h now seed true f initial) = false /\
  ((error (load message_of h now seed true f initial) = None /\
    tasks (load message_of h now seed true f initial) <> []) \/
   (exists message, error (load message_of h now seed true f initial) = Some message /\
                    tasks (load message_of h now seed true f initial) = [])).
Proof.
  intros Hseed. unfold load.
  destruct (attempt message_of h now seed f) as [message | finalData] eqn:Hattempt;
    cbn [loading error tasks initial].
  - split; [reflexivity|]. right. now exists message.
  - split; [reflexivity|]. left. split; [reflexivity|].
    destruct f as [m | status | m | data]; cbn [attempt] in Hattempt; try discriminate.
    destruct (normalizeTasks h now data) as [normalized|e]; [|discriminate].
    injection Hattempt as <-.
    destruct (0 <? List.length normalized)%nat eqn:Hlen; [|exact Hseed].
    now apply nonempty_length.
Qed.

Lemma load_ends_with_tasks_or_error_witness :
  [normalized_title_only 0 (Str "seed")] <> [] /\
  loading (load plain_message plain_host 1700000000000
             [normalized_title_only 0 (Str "seed")] true (NotOk 404) initial) = false /\
  error (load plain_message plain_host 1700000000000
           [normalized_title_only 0 (Str "seed")] true (NotOk 404) initial)
  = Some "Failed to load tasks.json (404)".
Proof.
  assert (Hseed : [normalized_title_only 0 (Str "seed")] <> []) by discriminate.
  split; [exact Hseed|].
  split; [|reflexivity].
  exact (proj1 (load_ends_with_tasks_or_error plain_message plain_host 1700000000000
                  [normalized_title_only 0 (Str "seed")] (NotOk 404) Hseed)).
Defined.

(** X19: a body that is not an array, or is the empty array, is no error:
    the mounted hook takes the tasks of the fallback generator and leaves the
    error as it was. *)
Theorem load_falls_back_on_empty_data
    (message_of : Error -> string) (h : Host) (now : Z) (seed : list Task)
    (data : Value) (v : View) :
  isArray data = false \/ data = Array [] ->
  load message_of h now seed true (Body data) v
  = {| tasks := seed; loading := false; error := error v; fetched := true |}.
Proof.
  intros [Hnot | ->]; [|reflexivity].
  destruct data; try reflexivity. discriminate Hnot.
Qed.

Lemma load_falls_back_on_empty_data_witness :
  (isArray (title_only (Str "X")) = false \/ title_only (Str "X") = Array []) /\
  tasks (load plain_message plain_host 1700000000000
           [normalized_title_only 0 (Str "seed")] true (Body (title_only (Str "X"))) initial)
  = [normalized_title_only 0 (Str "seed")].
Proof.
  assert (H : isArray (title_only (Str "X")) = false \/ title_only (Str "X") = Array [])
    by (left; reflexivity).
  split; [exact H|].
  exact (f_equal tasks (load_falls_back_on_empty_data plain_message plain_host 1700000000000
                          [normalized_title_only 0 (Str "seed")]
                          (title_only (Str "X")) initial H)).
Defined.

(** X20: one record that is not normalisable fails the whole load: the
    tasks stay as they were (none of the other records is taken, and the
    fallback generator is not used) and the error is the message of the
    exception. *)
Theorem load_fails_on_one_bad_record
    (message_of : Error -> string) (h : Host) (now : Z) (seed : list Task)
    (elems : list Value) (i : nat) (t : Value) (v : View) :
  nth_error elems i = Some t ->
  normalizable h now t i = false ->
  exists e,
    load message_of h now seed true (Body (Array elems)) v
    = {| tasks := tasks v; loading := false; error := Some (message_of e);
         fetched := true |}.
Proof.
  intros Hnth Hbad.
  destruct (LoadLaws.normalizeTasks_bad_record_throws h now elems i t Hnth Hbad) as [e He].
  exists e. unfold load, attempt. now rewrite He.
Qed.

Lemma load_fails_on_one_bad_record_witness :
  nth_error [title_only (Str "A"); Null] 1 = Some Null /\
  normalizable plain_host 1700000000000 Null 1 = false /\
  load plain_message plain_host 1700000000000 [normalized_title_only 0 (Str "seed")]
       true (Body (Array [title_only (Str "A"); Null])) initial
  = {| tasks := []; loading := false; error := Some "TypeError"; fetched := true |} /\
  exists e,
    load plain_message plain_host 1700000000000 [normalized_title_only 0 (Str "seed")]
         true (Body (Array [title_only (Str "A"); Null])) initial
    = {| tasks := tasks initial; loading := false; error := Some (plain_message e);
         fetched := true |}.
Proof.
  split; [reflexivity|]. split; [reflexivity|]. split; [reflexivity|].
  exact (load_fails_on_one_bad_record plain_message plain_host 1700000000000
           [normalized_title_only 0 (Str "seed")] [title_only (Str "A"); Null]
           1%nat Null initial eq_refl eq_refl).
Defined.

(** X21: a non-empty array of normalisable records is taken as it is: the
    mounted hook ends with one task per record, the fallback generator is
    not used and the error stays as it was. *)
Theorem load_takes_normalized_records
    (message_of : Error -> string) (h : Host) (now : Z) (seed : list Task)
    (elems : list Value) (v : View) :
  elems <> [] ->
  (forall i t, nth_error elems i = Some t -> normalizable h now t i = true) ->
  exists out,
    normalizeTasks h now (Array elems) = Ok out /\
    List.length out = List.length elems /\
    load message_of h now seed true (Body (Array elems)) v
    = {| tasks := out; loading := false; error := error v; fetched := true |}.
Proof.
  intros Hne Hall.
  assert (Hret : exists out, normalizeTasks h now (Array elems) = Ok out).
  { unfold normalizeTasks. apply LoadLaws.map_indexed_returns. intros i t Hnth.
    apply LoadLaws.normalizeTask_returns_iff. now apply Hall. }
  destruct Hret as [out Hout]. exists out.
  assert (Hlen : List.length out = List.length elems).
  { unfold normalizeTasks in Hout. now apply LoadLaws.map_indexed_length in Hout. }
  split; [exact Hout|]. split; [exact Hlen|].
  unfold load, attempt. rewrite Hout.
  destruct out as [|o out]; [|reflexivity].
  destruct elems; [contradiction | discriminate Hlen].
Qed.

Lemma load_takes_normalized_records_witness :
  [title_only (Str "A"); record_done] <> [] /\
  List.length (tasks (load plain_message plain_host 1700000000000
                        [normalized_title_only 0 (Str "seed")] true
                        (Body (Array [title_only (Str "A"); record_done])) initial)) = 2%nat /\
  exists out,
    normalizeTasks plain_host 1700000000000 (Array [title_only (Str "A"); record_done])
    = Ok out /\
    List.length out = 2%nat.
Proof.
  assert (Hne : [title_only (Str "A"); record_done] <> []) by discriminate.
  assert (Hall : forall i t, nth_error [title_only (Str "A"); record_done] i = Some t ->
                             normalizable plain_host 1700000000000 t i = true).
  { intros [|[|i]] t Hnth; cbn [nth_error] in Hnth.
    - injection Hnth as <-. reflexivity.
    - injection Hnth as <-. reflexivity.
    - destruct i; discriminate Hnth. }
  split; [exact Hne|]. split; [reflexivity|].
  destruct (load_takes_normalized_records plain_message plain_host 1700000000000
              [normalized_title_only 0 (Str "seed")]
              [title_only (Str "A"); record_done] initial Hne Hall)
    as [out [Hout [Hlen _]]].
  exists out. split; [exact Hout | exact Hlen].
Defined.

End LoaderLaws.

(* ===================================================================== *)
(** ** Laws of the table handlers over the store *)
(* ===================================================================== *)

Module TableLaws.
Import Store Table.

Lemma truthy_Some (id0 : string) : id0 <> "" -> truthy (Some id0) = true.
Proof. intros Hne. cbn [truthy]. apply negb_true_iff. now apply String.eqb_neq. Qed.

(** X22: submitting a form value with a non-empty id is an update that
    keeps the ids and the order of the collection and the undo slot; on every
    task with that id the title, revenue, time, priority, status and
    [createdAt] become those of the form value. *)
Theorem submit_with_id_updates_in_place
    (e : Env) (value : FormValue) (id0 : string) (s : State) :
  f_id value = Some id0 -> id0 <> "" ->
  handleSubmit value = OnUpdate id0 (rest value) /\
  map id (tasks (perform e (handleSubmit value) s)) = map id (tasks s) /\
  lastDeleted (perform e (handleSubmit value) s) = lastDeleted s /\
  forall i t, nth_error (tasks s) i = Some t -> id t = id0 ->
    exists t', nth_error (tasks (perform e (handleSubmit value) s)) i = Some t' /\
               id t' = id0 /\
               title t' = f_title value /\
               revenue t' = f_revenue value /\
               timeTaken t' = f_timeTaken value /\
               priority t' = f_priority value /\
               status t' = f_status value /\
               createdAt t' = f_createdAt value.
Proof.
  intros Hid Hne.
  assert (Hcall : handleSubmit value = OnUpdate id0 (rest value)).
  { unfold handleSubmit. now rewrite Hid, (truthy_Some id0 Hne). }
  rewrite Hcall. cbn [perform]. split; [reflexivity|]. split; [|split; [reflexivity|]].
  - unfold updateTask. cbn [tasks]. now apply StoreLaws.map_id_updateOne.
  - intros i t Hnth Ht.
    exists (updateOne (new_date e) id0 (rest value) t). split.
    + unfold updateTask. cbn [tasks]. now apply map_nth_error.
    + unfold updateOne. rewrite Ht, String.eqb_refl. cbn [negb].
      match goal with |- context [if ?c then _ else _] => destruct c end;
        cbn; rewrite <- Ht; repeat split.
Qed.

Lemma submit_with_id_updates_in_place_witness :
  f_id form_a = Some "a" /\ "a" <> "" /\
  map id (tasks (perform env_1 (handleSubmit form_a)
                   {| tasks := [task_b; task_a]; lastDeleted := None |})) = ["b"; "a"] /\
  map completedAt (tasks (perform env_1 (handleSubmit form_a)
                            {| tasks := [task_b; task_a]; lastDeleted := None |}))
  = [Some "2024-01-03T00:00:00.000Z"; Some "2023-11-14T22:13:20.000Z"].
Proof.
  assert (Hne : "a" <> "") by discriminate.
  split; [reflexivity|]. split; [exact Hne|]. split; [|reflexivity].
  exact (proj1 (proj2 (submit_with_id_updates_in_place env_1 form_a "a"
                         {| tasks := [task_b; task_a]; lastDeleted := None |}
                         eq_refl Hne))).
Defined.

(** X23: a form value whose id is the empty string is not an update: it is
    added, and [addTask] stores it under the empty id instead of a generated
    one; for such a task the delete icon opens no confirmation dialog and
    confirming makes no call. *)
Theorem submit_with_empty_id_adds_undeletable_task
    (e : Env) (value : FormValue) (s : State) (d : Dialogs) :
  f_id value = Some "" ->
  exists t,
    handleSubmit value = OnAdd (as_payload value) /\
    tasks (perform e (handleSubmit value) s) = t :: tasks s /\
    id t = "" /\
    confirmOpen (clickDelete t d) = false /\
    handleConfirmDelete (clickDelete t d) = (None, clickDelete t d).
Proof.
  intros Hid. exists (newTask e (as_payload value)).
  assert (Hcall : handleSubmit value = OnAdd (as_payload value)).
  { unfold handleSubmit. now rewrite Hid. }
  assert (Hempty : id (newTask e (as_payload value)) = "").
  { cbn [newTask id as_payload n_id]. now rewrite Hid. }
  rewrite Hcall. cbn [perform]. split; [reflexivity|]. split; [reflexivity|].
  split; [exact Hempty|].
  unfold confirmOpen, handleConfirmDelete, clickDelete. cbn [deleteId].
  rewrite Hempty. split; reflexivity.
Qed.

Lemma submit_with_empty_id_adds_undeletable_task_witness :
  f_id {| f_id := Some ""; f_title := "Untitled"; f_revenue := 0; f_timeTaken := 0;
          f_priority := "Low"; f_status := "Todo"; f_notes := None;
          f_createdAt := ""; f_completedAt := None |} = Some "" /\
  map id (tasks (perform env_1
                   (handleSubmit {| f_id := Some ""; f_title := "Untitled"; f_revenue := 0;
                                    f_timeTaken := 0; f_priority := "Low";
                                    f_status := "Todo"; f_notes := None;
                                    f_createdAt := ""; f_completedAt := None |})
                   {| tasks := [task_a]; lastDeleted := None |})) = [""; "a"] /\
  exists t,
    tasks (perform env_1
             (handleSubmit {| f_id := Some ""; f_title := "Untitled"; f_revenue := 0;
                              f_timeTaken := 0; f_priority := "Low";
                              f_status := "Todo"; f_notes := None;
                              f_createdAt := ""; f_completedAt := None |})
             {| tasks := [task_a]; lastDeleted := None |}) = t :: [task_a] /\
    id t = "" /\
    confirmOpen (clickDelete t closed) = false.
Proof.
  split; [reflexivity|]. split; [reflexivity|].
  destruct (submit_with_empty_id_adds_undeletable_task env_1
              {| f_id := Some ""; f_title := "Untitled"; f_revenue := 0; f_timeTaken := 0;
                 f_priority := "Low"; f_status := "Todo"; f_notes := None;
                 f_createdAt := ""; f_completedAt := None |}
              {| tasks := [task_a]; lastDeleted := None |} closed eq_refl)
    as [t [_ [Htasks [Hid [Hopen _]]]]].
  exists t. repeat split; assumption.
Defined.

(** X24: in a store with unique ids, clicking the delete icon of a task
    with a non-empty id and confirming makes one delete call: the task leaves
    the collection and becomes the pending undo, the dialog is closed, and
    confirming again makes no call. *)
Theorem confirm_delete_removes_the_task
    (e : Env) (t : Task) (s : State) (d : Dialogs) :
  NoDup (map id (tasks s)) -> In t (tasks s) -> id t <> "" ->
  confirmOpen (clickDelete t d) = true /\
  fst (handleConfirmDelete (clickDelete t d)) = Some (OnDelete (id t)) /\
  deleteId (snd (handleConfirmDelete (clickDelete t d))) = None /\
  fst (handleConfirmDelete (snd (handleConfirmDelete (clickDelete t d)))) = None /\
  lastDeleted (perform_opt e (fst (handleConfirmDelete (clickDelete t d))) s) = Some t /\
  ~ In t (tasks (perform_opt e (fst (handleConfirmDelete (clickDelete t d))) s)) /\
  tasks (perform_opt e (fst (handleConfirmDelete (clickDelete t d))) s)
  = filter (fun u => negb (String.eqb (id u) (id t))) (tasks s).
Proof.
  intros Hnd Hin Hne.
  unfold confirmOpen, handleConfirmDelete, clickDelete. cbn [deleteId].
  rewrite (truthy_Some (id t) Hne). cbn [fst snd deleteId perform_opt perform].
  split; [reflexivity|]. split; [reflexivity|]. split; [reflexivity|].
  split; [reflexivity|].
  unfold deleteTask. cbn [tasks lastDeleted].
  split; [now apply StoreFacts.find_unique_id|]. split; [|reflexivity].
  intros Hin'. apply filter_In in Hin'. destruct Hin' as [_ Hkeep].
  now rewrite String.eqb_refl in Hkeep.
Qed.

Lemma confirm_delete_removes_the_task_witness :
  NoDup (map id [task_a; task_b]) /\ id task_b <> "" /\
  tasks (perform_opt env_1 (fst (handleConfirmDelete (clickDelete task_b closed)))
           {| tasks := [task_a; task_b]; lastDeleted := None |}) = [task_a] /\
  lastDeleted (perform_opt env_1 (fst (handleConfirmDelete (clickDelete task_b closed)))
                 {| tasks := [task_a; task_b]; lastDeleted := None |}) = Some task_b.
Proof.
  assert (Hnd : NoDup (map id [task_a; task_b])).
  { simpl. repeat constructor; simpl; intuition discriminate. }
  assert (Hne : id task_b <> "") by discriminate.
  split; [exact Hnd|]. split; [exact Hne|]. split; [reflexivity|].
  exact (proj1 (proj2 (proj2 (proj2 (proj2
           (confirm_delete_removes_the_task env_1 task_b
              {| tasks := [task_a; task_b]; lastDeleted := None |} closed
              Hnd (or_intror (or_introl eq_refl)) Hne)))))).
Defined.

End TableLaws.
